(** * Bikroy price-intelligence scraper: the crawl-and-extract pipeline

    A shallow embedding of [scraper/config.py], [scraper/dbmanage.py] and
    [scraper/scraper.py], and the properties of the pipeline proved over it.

    Python values are modelled as follows.
    - [str] is a sequence of Unicode code points: [list N].  Literals are
      written as UTF-8 text and decoded by [u].
    - A [dict] is a [gmap]; a [set] is a [gset]; a [list] is a [list].
    - [None] is [None] of an [option]; an exception is the left injection
      of a sum.
    - The SQLite table [mobiles] is a finite map from its primary key
      (the URL) to the stored row.
    - A parsed document (BeautifulSoup tree) is a forest of [node]s. *)

From Stdlib Require Import ZArith Ascii String Decimal DecimalString.
From Equations Require Import Equations.
From stdpp Require Import gmap strings list.

Local Open Scope N_scope.
#[local] Set Warnings "-register-all,-clear-no-such-hyp".

(** ** Python strings *)

(** A Python [str]: the sequence of its code points. *)
Abbreviation char := N (only parsing).
Abbreviation str := (list N) (only parsing).

(** Decoder for the UTF-8 text of the literals of this file. *)
Fixpoint utf8_decode (bs : list N) : str :=
  match bs with
  | [] => []
  | b :: r =>
    if b <? 0x80 then b :: utf8_decode r
    else if b <? 0xE0 then
      match r with
      | b1 :: r1 =>
        N.lor (N.shiftl (N.land b 0x1F) 6) (N.land b1 0x3F) :: utf8_decode r1
      | _ => []
      end
    else if b <? 0xF0 then
      match r with
      | b1 :: b2 :: r2 =>
        N.lor (N.shiftl (N.land b 0x0F) 12)
          (N.lor (N.shiftl (N.land b1 0x3F) 6) (N.land b2 0x3F))
        :: utf8_decode r2
      | _ => []
      end
    else
      match r with
      | b1 :: b2 :: b3 :: r3 =>
        N.lor (N.shiftl (N.land b 0x07) 18)
          (N.lor (N.shiftl (N.land b1 0x3F) 12)
             (N.lor (N.shiftl (N.land b2 0x3F) 6) (N.land b3 0x3F)))
        :: utf8_decode r3
      | _ => []
      end
  end.

(** [u "text"] is the Python literal ["text"]. *)
Definition u (s : string) : str :=
  utf8_decode (N_of_ascii <$> list_ascii_of_string s).
#[global] Arguments u : simpl never.

(** [str(n)] for a non-negative [int]. *)
Definition py_str_nat (n : nat) : str :=
  u (NilZero.string_of_uint (Nat.to_uint n)).

(** [c.isspace()]: the white-space code points of the interpreter's Unicode
    database; the same test is behind [\s] of [re] and [str.strip()]. *)
Definition isspace (c : char) : bool :=
  ((0x09 <=? c) && (c <=? 0x0D)) || ((0x1C <=? c) && (c <=? 0x20))
  || (c =? 0x85) || (c =? 0xA0) || (c =? 0x1680)
  || ((0x2000 <=? c) && (c <=? 0x200A))
  || (c =? 0x2028) || (c =? 0x2029) || (c =? 0x202F) || (c =? 0x205F)
  || (c =? 0x3000).

Fixpoint lstrip_by (sp : char → bool) (s : str) : str :=
  match s with
  | c :: r => if sp c then lstrip_by sp r else s
  | [] => []
  end.

Definition strip_by (sp : char → bool) (s : str) : str :=
  reverse (lstrip_by sp (reverse (lstrip_by sp s))).

(** [s.strip()] *)
Definition strip (s : str) : str := strip_by isspace s.

(** [p in s] for two strings: [p] occurs in [s] as a contiguous run. *)
Fixpoint str_in (p s : str) : bool :=
  if bool_decide (p `prefix_of` s) then true
  else match s with
       | [] => false
       | _ :: r => str_in p r
       end.

(** [s.startswith(p)] *)
Definition startswith (s p : str) : bool := bool_decide (p `prefix_of` s).

(** [sep.join(parts)] *)
Fixpoint join (sep : str) (parts : list str) : str :=
  match parts with
  | [] => []
  | [x] => x
  | x :: r => x ++ sep ++ join sep r
  end.

(** [s.replace(old, new)] for a non-empty [old]: the occurrences of [old]
    are replaced from the left, without overlap. *)
Fixpoint replace_fuel (fuel : nat) (old new s : str) : str :=
  match fuel with
  | O => s
  | S fuel' =>
    if bool_decide (old `prefix_of` s)
    then new ++ replace_fuel fuel' old new (drop (length old) s)
    else match s with
         | [] => []
         | c :: r => c :: replace_fuel fuel' old new r
         end
  end.

Definition replace (old new s : str) : str :=
  replace_fuel (length s) old new s.

(** [str.maketrans(x, y)] for two strings of equal length: the dictionary
    sending the i-th code point of [x] to the i-th of [y]; as in a [dict]
    built from pairs, a later pair overrides an earlier one. *)
Definition maketrans (x y : str) : gmap N N :=
  foldl (λ m kv, <[kv.1 := kv.2]> m) ∅ (zip x y).

(** [s.translate(table)] for such a table: code points without an entry
    are kept. *)
Definition translate (table : gmap N N) (s : str) : str :=
  (λ c, default c (table !! c)) <$> s.

(** ** scraper/config.py *)

Definition BASE_URL : str := u "https://bikroy.com".
Definition BASE_PAGE_URL : str :=
  BASE_URL ++ u "/bn/ads/bangladesh/mobiles?sort=date&order=desc&buy_now=0&urgent=0&page=".

Definition MAX_PAGES : nat := 300.
Definition MAX_RETRIES : nat := 3.
Definition RETRY_WAIT_MIN : Z := 60.
Definition RETRY_WAIT_MAX : Z := 120.

Definition BANGLA_DIGITS : str := u "০১২৩৪৫৬৭৮৯".
Definition ASCII_DIGITS : str := u "0123456789".

Definition BANGLA_TO_ENGLISH : gmap N N := maketrans BANGLA_DIGITS ASCII_DIGITS.

Definition MONTH_MAP : list (str * str) :=
  [ (u "জানু", u "Jan"); (u "ফেব", u "Feb"); (u "মার্চ", u "Mar");
    (u "এপ্রি", u "Apr"); (u "মে", u "May"); (u "জুন", u "Jun");
    (u "জুলা", u "Jul"); (u "আগ", u "Aug"); (u "সেপ্ট ", u "Sep");
    (u "অক্টো", u "Oct"); (u "নভে", u "Nov"); (u "ডিসে", u "Dec") ].

Definition LABEL_CONDITION : str := u "কন্ডিশন:".
Definition LABEL_MODEL : str := u "মডেল:".
Definition LABEL_BRAND : str := u "ব্র্যান্ড:".

Definition FIELD_MAP : gmap str str :=
  <[LABEL_BRAND := u "Brand"]>
    (<[LABEL_MODEL := u "Model"]>
       (<[LABEL_CONDITION := u "Condition"]> ∅)).

(** ** Exceptions and [int()] *)

Inductive exn :=
| AttributeError
| ValueError
| KeyError
| IndexError
| OverflowError.

(** The outcome of an expression that may raise. *)
Abbreviation raises A := (exn + A)%type (only parsing).

#[global] Instance raises_ret : MRet (sum exn) := λ A a, inr a.
#[global] Instance raises_bind : MBind (sum exn) := λ A B k m,
  match m with
  | inl e => inl e
  | inr a => k a
  end.

Definition raise {A} (e : exn) : raises A := inl e.

(** [try: m except Exception: handler] *)
Definition try_except {A} (m : raises A) (handler : exn → A) : A :=
  match m with
  | inl e => handler e
  | inr a => a
  end.

(** The code points of general category Nd (Unicode 14) come in runs of
    ten, from the digit zero to the digit nine of a script; these are the
    zeros. *)
Definition DECIMAL_ZEROS : list N :=
  [ 0x30; 0x660; 0x6F0; 0x7C0; 0x966; 0x9E6; 0xA66; 0xAE6; 0xB66; 0xBE6;
    0xC66; 0xCE6; 0xD66; 0xDE6; 0xE50; 0xED0; 0xF20; 0x1040; 0x1090; 0x17E0;
    0x1810; 0x1946; 0x19D0; 0x1A80; 0x1A90; 0x1B50; 0x1BB0; 0x1C40; 0x1C50;
    0xA620; 0xA8D0; 0xA900; 0xA9D0; 0xA9F0; 0xAA50; 0xABF0; 0xFF10; 0x104A0;
    0x10D30; 0x11066; 0x110F0; 0x11136; 0x111D0; 0x112F0; 0x11450; 0x114D0;
    0x11650; 0x116C0; 0x11730; 0x118E0; 0x11950; 0x11C50; 0x11D50; 0x11DA0;
    0x16A60; 0x16AC0; 0x16B50; 0x1D7CE; 0x1D7D8; 0x1D7E2; 0x1D7EC; 0x1D7F6;
    0x1E140; 0x1E2F0; 0x1E950; 0x1FBF0 ].

(** The value of a decimal digit of any script. *)
Definition digit_value (c : char) : option Z :=
  (λ z, Z.of_N (c - z)) <$>
    List.find (λ z, (z <=? c) && (c <? z + 10)) DECIMAL_ZEROS.

(** The digits of an [int()] literal: digits, with single underscores
    allowed between two digits. *)
Fixpoint int_digits (acc : Z) (after_digit : bool) (s : str) : option Z :=
  match s with
  | [] => if after_digit then Some acc else None
  | c :: r =>
    if c =? 0x5F
    then if after_digit then int_digits acc false r else None
    else match digit_value c with
         | Some d => int_digits (10 * acc + d)%Z true r
         | None => None
         end
  end.

(** White space that [int()] skips around the literal. *)
Definition int_space (c : char) : bool :=
  isspace c && negb ((0x1C <=? c) && (c <=? 0x1F)).

(** The sign of an [int()] literal and what follows it. *)
Definition int_sign (s : str) : Z * str :=
  match s with
  | c :: r =>
    if c =? 0x2D then ((-1)%Z, r)
    else if c =? 0x2B then (1%Z, r)
    else (1%Z, s)
  | [] => (1%Z, s)
  end.

(** [int(s)] for a string, base ten: optional white space, an optional
    sign, the digits.  (The interpreter's optional cap on the length of the
    literal, another [ValueError], is left out.) *)
Definition py_int (s : str) : raises Z :=
  let s := strip_by int_space s in
  let '(sign, body) := int_sign s in
  match int_digits 0 false body with
  | Some n => mret (sign * n)%Z
  | None => raise ValueError
  end.

(** ** The parsed document *)

(** A node of the tree that [BeautifulSoup(html, "html.parser")] builds:
    a text node, or an element with its name, its [class] attribute (split
    into the list of class names, [None] when the element has none), its
    single-valued attributes and its children.  Comments and the like are
    ignored by every operation below and are left out. *)
Inductive node :=
| NavigableString (s : str)
| Tag (name : str) (class_ : option (list str)) (attrs : gmap str str)
      (contents : list node).

(** The contents of the document root. *)
Abbreviation BeautifulSoup := (list node) (only parsing).

(** The descendants of an element in document order, each with the list of
    its following siblings. *)
Fixpoint descendants_of (n : node) : list (node * list node) :=
  match n with
  | NavigableString _ => []
  | Tag _ _ _ cs =>
    (fix forest (l : list node) : list (node * list node) :=
       match l with
       | [] => []
       | c :: r => (c, r) :: descendants_of c ++ forest r
       end) cs
  end.

Fixpoint descendants (l : list node) : list (node * list node) :=
  match l with
  | [] => []
  | c :: r => (c, r) :: descendants_of c ++ descendants r
  end.

Definition contents_of (n : node) : list node :=
  match n with
  | NavigableString _ => []
  | Tag _ _ _ cs => cs
  end.

(** The text nodes below a forest, in document order. *)
Definition strings (l : list node) : list str :=
  omap (λ p, match p.1 with NavigableString s => Some s | Tag _ _ _ _ => None end)
       (descendants l).

(** [tag.get_text(sep, strip=True)]: the stripped, non-empty strings below
    the element, joined by [sep]. *)
Definition get_text (sep : str) (n : node) : str :=
  join sep (filter (λ s, s ≠ []) (strip <$> strings (contents_of n))).

(** *** Search criteria *)

Definition name_of (n : node) : option str :=
  match n with
  | NavigableString _ => None
  | Tag name _ _ _ => Some name
  end.

Definition has_name (name : str) (n : node) : bool :=
  bool_decide (name_of n = Some name).

(** [class_=re.compile(p)]: the pattern is searched in each class name and
    then in the class names joined by a space. *)
Definition class_search (search : str → bool) (n : node) : bool :=
  match n with
  | Tag _ (Some cs) _ _ => existsb search cs || search (join (u " ") cs)
  | _ => false
  end.

Definition attr (key : str) (n : node) : option str :=
  match n with
  | NavigableString _ => None
  | Tag _ _ attrs _ => attrs !! key
  end.

(** [key=True]: the attribute is present. *)
Definition has_attr (key : str) (n : node) : bool :=
  bool_decide (is_Some (attr key n)).

(** [{key: value}]: the attribute is present with exactly this value. *)
Definition attr_is (key value : str) (n : node) : bool :=
  bool_decide (attr key n = Some value).

(** [re.compile("^p").search(s)] for a literal [p] *)
Definition re_prefix (p : str) (s : str) : bool := startswith s p.

(** [re.compile("p").search(s)] for a literal [p] *)
Definition re_literal (p : str) (s : str) : bool := str_in p s.

(** *** [find_all], [find], [find_next_sibling] *)

(** The matching descendants in document order, each with its following
    siblings. *)
Definition find_all_ctx (crit : node → bool) (l : list node)
  : list (node * list node) :=
  filter (λ p, crit p.1 = true) (descendants l).

Definition find_all (crit : node → bool) (l : list node) : list node :=
  (find_all_ctx crit l).*1.

Definition find (crit : node → bool) (l : list node) : option node :=
  head (find_all crit l).

(** [tag.find_next_sibling(name)], from the following siblings of [tag]. *)
Definition find_next_sibling (name : str) (next_siblings : list node)
  : option node :=
  List.find (has_name name) next_siblings.

(** [obj.get_text(sep, strip=True)] where [obj] may be [None]. *)
Definition get_text_of (sep : str) (obj : option node) : raises str :=
  match obj with
  | Some tag => mret (get_text sep tag)
  | None => raise AttributeError
  end.

(** [d[key]] on a dictionary *)
Definition getitem {V} (d : gmap str V) (key : str) : raises V :=
  match d !! key with
  | Some v => mret v
  | None => raise KeyError
  end.

(** [tag[key]] on an element *)
Definition getattr (n : node) (key : str) : raises str :=
  match attr key n with
  | Some v => mret v
  | None => raise KeyError
  end.

(** [l[i]] on a list *)
Definition index {A} (l : list A) (i : nat) : raises A :=
  match l !! i with
  | Some x => mret x
  | None => raise IndexError
  end.

(** [l[i] if len(l) > i else None] *)
Definition index_if_longer {A} (l : list A) (i : nat) : raises (option A) :=
  if (i <? length l)%nat then x ← index l i; mret (Some x) else mret None.

(** A [for] loop whose body may raise: the loop stops at the first
    exception. *)
Fixpoint for_each {A S} (body : S → A → raises S) (l : list A) (s : S)
  : raises S :=
  match l with
  | [] => mret s
  | x :: r => s' ← body s x; for_each body r s'
  end.

(** ** scraper/dbmanage.py *)

(** The dictionary handed to [save_to_db], which is also a row of the
    table [mobiles]: the key [URL], the nullable columns, and the two
    columns the scraper always fills. *)
Record data := mk_data {
  URL : str;
  Title : option str;
  Price : option Z;
  Published_time : option str;
  Published_Date : option str;
  Seller_name : option str;
  Condition : option str;
  Model : option str;
  Brand : option str;
  Features : option str;
  Description : option str;
  Location : option str;
  Division : option str;
  Img_urls : str;
  Date : str
}.

(** An [int] that SQLite can store. *)
Definition sqlite_integer (z : Z) : bool :=
  ((- 2 ^ 63 <=? z) && (z <? 2 ^ 63))%Z.

(** [save_to_db(data)]: [INSERT OR IGNORE] on the primary key [URL].
    Binding an [int] outside the 64-bit range raises before the table is
    touched.  ([Img_urls] is already a string here, so the conversion at
    the head of the function does not apply.) *)
Definition save_to_db (mobiles : gmap str data) (d : data)
  : raises unit * gmap str data :=
  if from_option sqlite_integer true (Price d)
  then match mobiles !! URL d with
       | Some _ => (mret (), mobiles)
       | None => (mret (), <[URL d := d]> mobiles)
       end
  else (raise OverflowError, mobiles).

(** [get_existing_urls()]: the set of the stored keys. *)
Definition get_existing_urls (mobiles : gmap str data) : gset str :=
  dom mobiles.

(** [filter_new_urls(all_urls)] *)
Definition filter_new_urls (mobiles : gmap str data) (all_urls : list str)
  : list str :=
  let existing_urls := get_existing_urls mobiles in
  filter (λ url, url ∉ existing_urls) all_urls.

(** ** scraper/scraper.py *)

(** The search criteria of the calls of [find] and [find_all]. *)

(** [("h1", class_=re.compile(r"^title--"))] *)
Definition h1_title (n : node) : bool :=
  has_name (u "h1") n && class_search (re_prefix (u "title--")) n.

(** [("div", class_=re.compile(r"^amount"))] *)
Definition div_amount (n : node) : bool :=
  has_name (u "div") n && class_search (re_prefix (u "amount")) n.

(** [("div", class_=re.compile(r"subtitle-wrapper"))] *)
Definition div_subtitle_wrapper (n : node) : bool :=
  has_name (u "div") n && class_search (re_literal (u "subtitle-wrapper")) n.

(** [("a", class_=re.compile(r"subtitle-location-link"))] *)
Definition a_location_link (n : node) : bool :=
  has_name (u "a") n && class_search (re_literal (u "subtitle-location-link")) n.

(** [("div", class_=re.compile(r"^features"))] *)
Definition div_features (n : node) : bool :=
  has_name (u "div") n && class_search (re_prefix (u "features")) n.

(** [("div", class_=re.compile(r"^description"))] *)
Definition div_description (n : node) : bool :=
  has_name (u "div") n && class_search (re_prefix (u "description")) n.

(** [("div", class_=re.compile(r"contact-name"))] *)
Definition div_contact_name (n : node) : bool :=
  has_name (u "div") n && class_search (re_literal (u "contact-name")) n.

(** [("img", src=True)] *)
Definition img_with_src (n : node) : bool :=
  has_name (u "img") n && has_attr (u "src") n.

(** [("ul", {"data-testid": "list"})] *)
Definition ul_list (n : node) : bool :=
  has_name (u "ul") n && attr_is (u "data-testid") (u "list") n.

(** [("a", href=True)] *)
Definition a_with_href (n : node) : bool :=
  has_name (u "a") n && has_attr (u "href") n.

(** One step of the loop of [extract_fields]. *)
Definition extract_fields_step (result : gmap str (option str))
    (div : node * list node) : gmap str (option str) :=
  let text := get_text [] div.1 in
  match FIELD_MAP !! text with
  | Some key =>
    match find_next_sibling (u "div") div.2 with
    | Some next_div => <[key := Some (get_text [] next_div)]> result
    | None => result
    end
  | None => result
  end.

(** [{v: None for v in FIELD_MAP.values()}] *)
Definition extract_fields_init : gmap str (option str) :=
  list_to_map ((λ kv, (kv.2, None)) <$> map_to_list FIELD_MAP).

Definition extract_fields (soup : BeautifulSoup) : gmap str (option str) :=
  let result := extract_fields_init in
  let all_divs := find_all_ctx (has_name (u "div")) soup in
  foldl extract_fields_step result all_divs.

Definition AVATAR_PREFIX : str := u "https://i.bikroy-st.com/u/".

Definition extract_images (soup : BeautifulSoup) : raises (list str) :=
  let all_imgs := find_all img_with_src soup in
  for_each
    (λ img_urls img,
       src ← getattr img (u "src");
       if negb (str_in AVATAR_PREFIX src)
       then mret (img_urls ++ [src])
       else mret img_urls)
    all_imgs [].

(** The [re.sub] of the price block: the taka sign, commas and white
    space are deleted. *)
Definition sub_price_noise (text : str) : str :=
  filter (λ c, ¬ (c = 0x9F3 ∨ c = 0x2C ∨ isspace c = true)) text.

(** The blocks of [clean_html] that read one field each. *)

(** Extract title *)
Definition extract_title (soup : BeautifulSoup) : option str :=
  let title_tag := find h1_title soup in
  get_text [] <$> title_tag.

(** Extract price *)
Definition extract_price (soup : BeautifulSoup) : option Z :=
  try_except
    (let price_tag := find div_amount soup in
     price_text ← get_text_of [] price_tag;
     price ← py_int (translate BANGLA_TO_ENGLISH (sub_price_noise price_text));
     mret (Some price))
    (λ _, None).

(** Extract location *)
Definition extract_locations (soup : BeautifulSoup) : list str :=
  let subtitle_wrapper := find div_subtitle_wrapper soup in
  match subtitle_wrapper with
  | Some w => get_text [] <$> find_all a_location_link (contents_of w)
  | None => []
  end.

(** Extract features *)
Definition extract_features (soup : BeautifulSoup) : option str :=
  let feature_tag := find div_features soup in
  match feature_tag with
  | Some t => get_text [] <$> find (has_name (u "p")) (contents_of t)
  | None => None
  end.

(** Extract description *)
Definition extract_description (soup : BeautifulSoup) : str :=
  let desc_div := find div_description soup in
  let paragraphs :=
    match desc_div with
    | Some d => find_all (has_name (u "p")) (contents_of d)
    | None => []
    end in
  join [0x0A] (filter (λ s, s ≠ []) (get_text [] <$> paragraphs)).

(** Extract seller name *)
Definition extract_seller_name (soup : BeautifulSoup) : option str :=
  let seller_div := find div_contact_name soup in
  get_text [] <$> seller_div.

(** What [session.get(url)] followed by reading and parsing the body comes
    to: a response with its status and parsed body, a time-out, or any
    other exception raised inside the [try] block. *)
Inductive outcome :=
| Response (status : Z) (body : BeautifulSoup)
| TimeoutError
| OtherException.

(** What a call of [clean_html] returns. *)
Inductive result :=
| PyTrue
| PyNone.

(** The observable input and output of a run. *)
Inductive event :=
| Get (url : str) (retry_count : nat)
| Sleep (seconds : Z).

(** The state a run works on: the table, the list [failed_urls] of
    [scrape_mobile_inf], the events so far and the report file (its
    content, when it was written). *)
Record state := mk_state {
  mobiles : gmap str data;
  failed_urls : list str;
  trace : list event;
  failed_urls_file : option str
}.

Definition emit (e : event) (st : state) : state :=
  mk_state (mobiles st) (failed_urls st) (trace st ++ [e]) (failed_urls_file st).

Definition set_mobiles (m : gmap str data) (st : state) : state :=
  mk_state m (failed_urls st) (trace st) (failed_urls_file st).

Definition set_failed_urls (l : list str) (st : state) : state :=
  mk_state (mobiles st) l (trace st) (failed_urls_file st).

Definition write_failed_urls_file (content : str) (st : state) : state :=
  mk_state (mobiles st) (failed_urls st) (trace st) (Some content).

Section Scraper.

(** The network: the outcome of fetching [url] at attempt [retry_count]
    (index pages are fetched once, at attempt 0). *)
Variable session_get : str → nat → outcome.

(** [random.randint(RETRY_WAIT_MIN, RETRY_WAIT_MAX)] as drawn before the
    retry that follows attempt [retry_count] of [url]. *)
Variable randint : str → nat → Z.

(** Group 1 of the first match of the "posted at ... ," pattern of
    [parse_date_time] in a text, [None] without a match. *)
Variable re_search_posted : str → option str.

(** [datetime.strptime] of the phrase completed by the current year,
    rendered as the pair [(time_str, date_str)]. *)
Variable strptime_strftime : str → raises (str * str).

(** [datetime.now().strftime("%Y-%m-%d")] *)
Variable current_date : str.

(** [json.dumps] of a list of strings *)
Variable json_dumps : list str → str.

Definition parse_date_time (soup : BeautifulSoup) (url : str)
  : option str * option str :=
  match find (has_name (u "div")) soup with
  | None => (None, None)
  | Some div =>
    let text := get_text (u " ") div in
    let match_ := re_search_posted text in
    if str_in (u "post-ad?") url then (None, None)
    else match match_ with
         | None => (None, None)
         | Some group1 =>
           let bangla_dt := strip group1 in
           let eng_dt := translate BANGLA_TO_ENGLISH bangla_dt in
           let eng_dt :=
             foldl (λ eng_dt kv, replace kv.1 kv.2 eng_dt) eng_dt MONTH_MAP in
           let eng_dt :=
             replace (u "পিএম") (u "PM") (replace (u "এএম") (u "AM") eng_dt) in
           try_except
             (r ← strptime_strftime eng_dt; mret (Some r.1, Some r.2))
             (λ _, (None, None))
         end
  end.

(** The extraction part of [clean_html]: from the parsed page to the
    dictionary [data]. *)
Definition extract_data (soup : BeautifulSoup) (url : str) : raises data :=
  let title := extract_title soup in
  let price := extract_price soup in
  let '(published_time, published_date) := parse_date_time soup url in
  let locations := extract_locations soup in
  let fields := extract_fields soup in
  let features := extract_features soup in
  let description := extract_description soup in
  let seller_name := extract_seller_name soup in
  img_urls ← extract_images soup;
  condition ← getitem fields (u "Condition");
  model ← getitem fields (u "Model");
  brand ← getitem fields (u "Brand");
  location ← index_if_longer locations 0;
  division ← index_if_longer locations 1;
  mret {| URL := url;
          Title := title;
          Price := price;
          Published_time := published_time;
          Published_Date := published_date;
          Seller_name := seller_name;
          Condition := condition;
          Model := model;
          Brand := brand;
          Features := features;
          Description := Some description;
          Location := location;
          Division := division;
          Img_urls := json_dumps img_urls;
          Date := current_date |}.

(** [clean_html(session, url, retry_count)].  An exception raised outside
    the [try] blocks leaves the function. *)
Equations? clean_html (url : str) (retry_count : nat) (st : state)
  : raises result * state by wf (MAX_RETRIES - retry_count)%nat lt :=
clean_html url retry_count st with session_get url retry_count := {
  | Response status soup =>
    if bool_decide (status ≠ 200%Z)
    then (mret PyNone, emit (Get url retry_count) st)
    else
      let st := emit (Get url retry_count) st in
      match extract_data soup url with
      | inl e => (raise e, st)
      | inr d =>
        match save_to_db (mobiles st) d with
        | (inr _, m) => (mret PyTrue, set_mobiles m st)
        | (inl _, m) => (mret PyNone, set_mobiles m st)
        end
      end
  | TimeoutError with decide (retry_count < MAX_RETRIES)%nat := {
    | left _ =>
      let wait_time := randint url retry_count in
      clean_html url (retry_count + 1)
                 (emit (Sleep wait_time) (emit (Get url retry_count) st))
    | right _ => (mret PyNone, emit (Get url retry_count) st) }
  | OtherException with decide (retry_count < MAX_RETRIES)%nat := {
    | left _ =>
      let wait_time := randint url retry_count in
      clean_html url (retry_count + 1)
                 (emit (Sleep wait_time) (emit (Get url retry_count) st))
    | right _ => (mret PyNone, emit (Get url retry_count) st) } }.
Proof. all: lia. Qed.

(** The task [safe_clean(link)] of [scrape_mobile_inf]. *)
Definition safe_clean (link : str) (st : state) : raises unit * state :=
  match clean_html link 0 st with
  | (inr r, st) =>
    match r with
    | PyNone => (mret (), set_failed_urls (failed_urls st ++ [link]) st)
    | PyTrue => (mret (), st)
    end
  | (inl e, st) => (raise e, st)
  end.

(** The [asyncio.gather] of the tasks [safe_clean(link)], taken one after the other
    in the order of [urls] (one of the schedules the event loop allows;
    a task's outcome depends on no other task). *)
Fixpoint gather_safe_clean (urls : list str) (st : state)
  : raises unit * state :=
  match urls with
  | [] => (mret (), st)
  | link :: rest =>
    match safe_clean link st with
    | (inr _, st) => gather_safe_clean rest st
    | (inl e, st) => (raise e, st)
    end
  end.

Definition scrape_mobile_inf (urls : list str) (st : state)
  : raises unit * state :=
  let st := set_failed_urls [] st in
  match gather_safe_clean urls st with
  | (inr _, st) =>
    if bool_decide (failed_urls st ≠ [])
    then (mret (), write_failed_urls_file (join [0x0A] (failed_urls st)) st)
    else (mret (), st)
  | (inl e, st) => (raise e, st)
  end.

(** [scrape_page(session, page_number)]: every exception ends in an
    empty list. *)
Definition scrape_page (page_number : nat) : list str :=
  let url := BASE_PAGE_URL ++ py_str_nat page_number in
  match session_get url 0 with
  | Response status soup =>
    if bool_decide (status ≠ 200%Z) then []
    else
      let ul := find ul_list soup in
      try_except
        (match ul with
         | Some ul =>
           for_each
             (λ new_links item,
                match find a_with_href (contents_of item) with
                | Some link_tag =>
                  href ← getattr link_tag (u "href");
                  let full_link :=
                    if startswith href (u "/") then BASE_URL ++ href else href in
                  mret (new_links ++ [full_link])
                | None => mret new_links
                end)
             (find_all (has_name (u "li")) (contents_of ul)) []
         | None => mret []
         end)
        (λ _, [])
  | TimeoutError => []
  | OtherException => []
  end.

(** [scraping_mobile_links()]: [asyncio.gather] returns the results in the
    order of the tasks, whatever the schedule. *)
Definition scraping_mobile_links : list str :=
  let results := scrape_page <$> seq 1 MAX_PAGES in
  foldl (λ all_links result, all_links ++ result) [] results.

(** [main()], after [init_db()]. *)
Definition main (st : state) : raises unit * state :=
  let phone_urls := scraping_mobile_links in
  let new_urls := filter_new_urls (mobiles st) phone_urls in
  if bool_decide (new_urls ≠ [])
  then scrape_mobile_inf new_urls st
  else (mret (), st).

End Scraper.

(** ** Notions used in the statements *)

#[global] Instance event_eq_dec : EqDecision event.
Proof. solve_decision. Defined.

(** How often [x] occurs in [l]. *)
Definition occurrences `{EqDecision A} (x : A) (l : list A) : nat :=
  length (filter (λ y, y = x) l).

(** The [src] values of the image elements of a document, in document
    order. *)
Definition img_sources (soup : BeautifulSoup) : list str :=
  omap (attr (u "src")) (find_all (has_name (u "img")) soup).

(** The sibling elements read for a label: for every [div] whose text is
    the label and which has a following sibling [div], that sibling, in
    document order. *)
Definition labelled_siblings (label : str) (soup : BeautifulSoup) : list node :=
  omap (λ div : node * list node,
          if bool_decide (get_text [] div.1 = label)
          then find_next_sibling (u "div") div.2 else None)
       (find_all_ctx (has_name (u "div")) soup).

(** The fetch attempts made for [url] in a trace. *)
Definition is_get (url : str) (e : event) : bool :=
  match e with
  | Get url' _ => bool_decide (url' = url)
  | Sleep _ => false
  end.

Definition attempts (url : str) (tr : list event) : nat :=
  length (filter (λ e, is_get url e = true) tr).

(** The events of a call of [clean_html] whose every request times out:
    four requests, a sleep before each retry. *)
Definition timeout_events (randint : str → nat → Z) (url : str) : list event :=
  [ Get url 0%nat; Sleep (randint url 0%nat);
    Get url 1%nat; Sleep (randint url 1%nat);
    Get url 2%nat; Sleep (randint url 2%nat);
    Get url 3%nat ].

(** ** Sample documents and environments *)

Definition txt (s : string) : node := NavigableString (u s).

Definition el (name : string) (classes : list string) (cs : list node) : node :=
  Tag (u name) (match classes with [] => None | _ => Some (u <$> classes) end) ∅ cs.

Definition img (src : string) : node :=
  Tag (u "img") None {[ u "src" := u src ]} [].

(** A detail page with every block but the features container. *)
Definition page_without_features : BeautifulSoup :=
  [ el "div" ["ad-page"]
      [ el "h1" ["title--3s1R8"] [txt " Nokia 3310 "];
        el "div" ["subtitle-wrapper--1M5Mv"]
          [ txt "পোস্ট করা হয়েছে ১২ জানু ১০:৩০ এএম, ";
            el "a" ["subtitle-location-link--1q5zA"] [txt "Mirpur"];
            txt ", ";
            el "a" ["subtitle-location-link--1q5zA"] [txt "Dhaka"] ];
        el "div" ["amount--3NTpl"] [txt "৳ ১,২০০"];
        el "div" ["word-break--2nyVq"; "label--3oVZK"] [txt "কন্ডিশন:"];
        el "div" ["word-break--2nyVq"; "value--1lKHt"] [txt "Used"];
        el "span" [] [txt "-"];
        el "div" ["word-break--2nyVq"; "label--3oVZK"] [txt "ব্র্যান্ড:"];
        el "div" ["word-break--2nyVq"; "value--1lKHt"] [txt "Nokia"];
        el "p" [] [ el "div" ["word-break--2nyVq"; "label--3oVZK"] [txt "মডেল:"] ];
        el "div" ["description--1nRbz"]
          [ el "p" [] [txt "Good phone"]; el "p" [] [txt "  "];
            el "p" [] [txt "Call me"] ];
        el "div" ["contact-name--m97Sb"] [txt "Rahim"];
        img "https://i.bikroy-st.com/u/avatar.png";
        img "https://i.bikroy-st.com/nokia-3310/1.jpg" ] ].

(** A detail page without a description container. *)
Definition page_without_description : BeautifulSoup :=
  [ el "div" ["ad-page"]
      [ el "h1" ["title--3s1R8"] [txt "Nokia 3310"];
        el "div" ["amount--3NTpl"] [txt "৳ ১,২০০"];
        el "div" ["features--2EGOC"] [ el "p" [] [txt "Dual SIM"] ] ] ].

(** A page whose price block carries a minus sign. *)
Definition page_negative_price : BeautifulSoup :=
  [ el "div" ["amount--3NTpl"] [txt "৳ -500"] ].

(** A page with an image whose address mentions the avatar host, but not
    at its start. *)
Definition page_proxied_avatar : BeautifulSoup :=
  [ img "https://img.example/fetch?src=https://i.bikroy-st.com/u/7.png" ].

(** A regular-expression search that finds the phrase of
    [page_without_features] after the marker. *)
Definition sample_re_search_posted (text : str) : option str :=
  if str_in (u "পোস্ট করা হয়েছে") text then Some (u "১২ জানু ১০:৩০ এএম") else None.

(** A clock in 2026 that knows one phrase. *)
Definition sample_strptime_strftime (eng_dt : str) : raises (str * str) :=
  if bool_decide (eng_dt = u "12 Jan 10:30 AM")
  then mret (u "10:30", u "2026-01-12")
  else raise ValueError.

Definition sample_current_date : str := u "2026-02-01".

(** [json.dumps] on strings that need no escape. *)
Definition sample_json_dumps (l : list str) : str :=
  u "[" ++ join (u ", ") ((λ x, [0x22] ++ x ++ [0x22]) <$> l) ++ u "]".

Definition sample_randint (url : str) (retry_count : nat) : Z := 90.

Definition sample_url : str := u "https://bikroy.com/bn/ad/nokia-3310".

(** A network on which every request times out. *)
Definition net_timeout (url : str) (retry_count : nat) : outcome := TimeoutError.

(** A network that answers every request with status 404. *)
Definition net_not_found (url : str) (retry_count : nat) : outcome :=
  Response 404 [].

Definition empty_state : state := mk_state ∅ [] [] None.

(** An index page that lists the same advertisement twice. *)
Definition index_page_with_duplicate : BeautifulSoup :=
  [ Tag (u "ul") None {[ u "data-testid" := u "list" ]}
      [ el "li" [] [ Tag (u "a") None {[ u "href" := u "/bn/ad/nokia-3310" ]} [] ];
        el "li" [] [ Tag (u "a") None {[ u "href" := u "/bn/ad/nokia-3310" ]} [] ];
        el "li" [] [ txt "no link" ] ] ].

(** A network on which the first index page is [index_page_with_duplicate],
    the advertisement is [page_without_features] and everything else is
    not found. *)
Definition net_duplicate (url : str) (retry_count : nat) : outcome :=
  if bool_decide (url = BASE_PAGE_URL ++ py_str_nat 1)
  then Response 200 index_page_with_duplicate
  else if bool_decide (url = sample_url)
       then Response 200 page_without_features
       else Response 404 [].

(** A stored row. *)
Definition sample_record (url title : string) (price : Z) : data :=
  {| URL := u url; Title := Some (u title); Price := Some price;
     Published_time := None; Published_Date := None; Seller_name := None;
     Condition := None; Model := None; Brand := None; Features := None;
     Description := Some []; Location := None; Division := None;
     Img_urls := u "[]"; Date := sample_current_date |}.

Definition first_payload : data := sample_record "https://bikroy.com/bn/ad/a" "first" 1200.
Definition second_payload : data := sample_record "https://bikroy.com/bn/ad/a" "second" 900.

(** A table that knows the URL of one advertisement. *)
Definition sample_mobiles : gmap str data :=
  {[ u "https://bikroy.com/bn/ad/a" := first_payload ]}.

(** The extraction in the sample environment. *)
Abbreviation sample_extract_data :=
  (extract_data sample_re_search_posted sample_strptime_strftime
                sample_current_date sample_json_dumps).

(** ** Further notions used in the statements *)

(** The back-off sleeps of a trace, in seconds. *)
Definition sleeps (tr : list event) : list Z :=
  omap (λ e, match e with Sleep seconds => Some seconds | Get _ _ => None end) tr.

(** A request that ends in one of the two [except] clauses of
    [clean_html]. *)
Definition is_failure (o : outcome) : bool :=
  match o with
  | Response _ _ => false
  | TimeoutError | OtherException => true
  end.

(** The events of [k] failed requests from attempt [retry_count] on, each
    followed by its sleep. *)
Definition retry_events (randint : str → nat → Z) (url : str)
    (retry_count k : nat) : list event :=
  flat_map (λ rc, [Get url rc; Sleep (randint url rc)]) (seq retry_count k).

(** The table after [INSERT OR IGNORE] of a row that can be bound. *)
Definition insert_or_ignore (mobiles : gmap str data) (d : data)
  : gmap str data :=
  match mobiles !! URL d with
  | Some _ => mobiles
  | None => <[URL d := d]> mobiles
  end.

(** Every row is stored under its own URL. *)
Definition keyed_by_url (mobiles : gmap str data) : Prop :=
  ∀ key d, mobiles !! key = Some d → URL d = key.


(** The table [m'] comes from [m] by adding rows for some of [urls]: the
    rows of [m] are all still there, unchanged, and every new key is one of
    [urls]. *)
Definition grows_within (urls : list str) (m m' : gmap str data) : Prop :=
  (∀ key r, m !! key = Some r → m' !! key = Some r)
  ∧ (∀ key, is_Some (m' !! key) → is_Some (m !! key) ∨ key ∈ urls)
  ∧ (keyed_by_url m → keyed_by_url m').

(** What the cleaning of the price block deletes. *)
Definition price_noise (c : char) : bool :=
  (c =? 0x9F3) || (c =? 0x2C) || isspace c.

(** The value of an ASCII or a Bangla digit. *)
Definition price_digit (c : char) : option Z :=
  if (0x30 <=? c) && (c <=? 0x39) then Some (Z.of_N (c - 0x30))
  else if (0x9E6 <=? c) && (c <=? 0x9EF) then Some (Z.of_N (c - 0x9E6))
  else None.

(** The number written by a sequence of digit values. *)
Definition decimal (ds : list Z) : Z :=
  foldl (λ acc d, 10 * acc + d)%Z 0%Z ds.

(** The link an index page gives for a relative or an absolute [href]. *)
Definition resolve_href (href : str) : str :=
  if startswith href (u "/") then BASE_URL ++ href else href.

(** The [href] of the first anchor with an [href] below a list item. *)
Definition item_href (item : node) : option str :=
  find a_with_href (contents_of item) ≫= attr (u "href").

(** The links of an index page: one per list item of the listing that has
    such an anchor, in document order. *)
Definition page_links (soup : BeautifulSoup) : list str :=
  match find ul_list soup with
  | Some ul =>
    omap (λ item, resolve_href <$> item_href item)
         (find_all (has_name (u "li")) (contents_of ul))
  | None => []
  end.

(** ** Further sample pages and networks *)

(** A network that fails every request, time-outs and other exceptions in
    turn. *)
Definition net_mixed_failures (url : str) (retry_count : nat) : outcome :=
  if Nat.even retry_count then TimeoutError else OtherException.




(** A page whose price block holds a word. *)
Definition page_negotiable : BeautifulSoup :=
  [ el "div" ["amount--3NTpl"] [txt " Negotiable "] ].

(** A state whose table knows the sample advertisement and whose report is
    left from an earlier run. *)
Definition known_state : state :=
  mk_state {[ sample_url := sample_record "https://bikroy.com/bn/ad/nokia-3310" "stored" 1000 ]}
           [] [] (Some (u "https://bikroy.com/bn/ad/old")).

(** The row extracted from [page_without_features]. *)
Definition sample_row : data :=
  {| URL := sample_url;
     Title := Some (u "Nokia 3310");
     Price := Some 1200%Z;
     Published_time := Some (u "10:30");
     Published_Date := Some (u "2026-01-12");
     Seller_name := Some (u "Rahim");
     Condition := Some (u "Used");
     Model := None;
     Brand := Some (u "Nokia");
     Features := None;
     Description := Some (u "Good phone" ++ [0x0A] ++ u "Call me");
     Location := Some (u "Mirpur");
     Division := Some (u "Dhaka");
     Img_urls := sample_json_dumps [u "https://i.bikroy-st.com/nokia-3310/1.jpg"];
     Date := sample_current_date |}.

(** The price blocks of two sample pages. *)
Definition price_tag_1200 : node := el "div" ["amount--3NTpl"] [txt "৳ ১,২০০"].
Definition price_tag_negotiable : node :=
  el "div" ["amount--3NTpl"] [txt " Negotiable "].

(** ** The date phrase *)

(** The phrase [parse_date_time] hands to [strptime] for the date text
    [bangla_dt], before the year is appended. *)
Definition english_date (bangla_dt : str) : str :=
  let eng_dt := translate BANGLA_TO_ENGLISH bangla_dt in
  let eng_dt :=
    foldl (λ eng_dt kv, replace kv.1 kv.2 eng_dt) eng_dt MONTH_MAP in
  replace (u "পিএম") (u "PM") (replace (u "এএম") (u "AM") eng_dt).

(** The two halves of the day and what [parse_date_time] writes for
    them. *)
Definition DAY_HALVES : list (str * str) :=
  [ (u "এএম", u "AM"); (u "পিএম", u "PM") ].

Definition ascii (c : char) : bool := c <? 0x80.

(** An ASCII code point or a Bangla digit. *)
Definition digit_or_ascii (c : char) : bool :=
  ascii c || ((0x9E6 <=? c) && (c <=? 0x9EF)).

(** A key that starts outside ASCII. *)
Definition key_ok (old : str) : bool :=
  match old with
  | o :: _ => negb (ascii o)
  | [] => false
  end.

(** [old] cannot be a prefix of [known] followed by an ASCII code
    point. *)
Fixpoint mismatch (old known : str) : bool :=
  match old, known with
  | [], _ => false
  | o :: os, k :: ks => if o =? k then mismatch os ks else true
  | o :: _, [] => negb (ascii o)
  end.

(** [old] starts nowhere in [block] when an ASCII code point follows the
    block. *)
Fixpoint block_clear (old block : str) : bool :=
  match block with
  | [] => true
  | _ :: block' => mismatch old block && block_clear old block'
  end.

(** What the replacements [keys] make of the block [block] when it stands
    between two ASCII runs and is followed by [tail]; [None] when a key
    matches in another way than as the whole block. *)
Fixpoint fold_phrase (keys : list (str * str)) (block tail : str)
  : option str :=
  match keys with
  | [] => Some block
  | (old, new) :: keys' =>
    if key_ok old && bool_decide (replace old new tail = tail)
    then if bool_decide (block = old) then fold_phrase keys' new tail
         else if block_clear old block then fold_phrase keys' block tail
              else None
    else None
  end.

(** * Properties *)

(** ** Lists and strings *)

Section Occurrences.
Context `{EqDecision A}.
Implicit Types (x : A) (l : list A).

Lemma occurrences_nil x : occurrences x [] = 0%nat.
Proof. reflexivity. Qed.

Lemma occurrences_cons x y l :
  occurrences x (y :: l) =
  ((if bool_decide (y = x) then 1 else 0) + occurrences x l)%nat.
Proof.
  unfold occurrences. rewrite filter_cons.
  case_bool_decide; destruct (decide (y = x)); done.
Qed.

Lemma occurrences_app x l1 l2 :
  occurrences x (l1 ++ l2) = (occurrences x l1 + occurrences x l2)%nat.
Proof. unfold occurrences. by rewrite filter_app, length_app. Qed.

Lemma occurrences_filter x (P : A → Prop) `{∀ y, Decision (P y)} l :
  occurrences x (filter P l) =
  if bool_decide (P x) then occurrences x l else 0%nat.
Proof.
  induction l as [|y l IH].
  - by case_bool_decide.
  - rewrite filter_cons. destruct (decide (P y)) as [Hy|Hy].
    + rewrite !occurrences_cons, IH.
      repeat case_bool_decide; subst; done || lia.
    + rewrite occurrences_cons, IH.
      repeat case_bool_decide; subst; done || lia.
Qed.
End Occurrences.

Lemma str_in_spec (p s : str) :
  str_in p s = true ↔ ∃ a b, s = a ++ p ++ b.
Proof.
  induction s as [|c s IH]; simpl.
  - case_bool_decide as Hp.
    + split; [intros _|done]. destruct Hp as [k ->]. by exists [], k.
    + split; [done|]. intros (a & b & Hab). destruct Hp.
      symmetry in Hab. apply app_eq_nil in Hab as [-> Hab]. simpl in Hab.
      by exists b.
  - case_bool_decide as Hp.
    + split; [intros _|done]. destruct Hp as [k ->]. by exists [], k.
    + rewrite IH. split.
      * intros (a & b & ->). by exists (c :: a), b.
      * intros (a & b & Hab). destruct a as [|c' a].
        -- destruct Hp. by exists b.
        -- injection Hab as -> ->. by exists a, b.
Qed.

Lemma str_in_prefix (p s : str) : p `prefix_of` s → str_in p s = true.
Proof. intros [k ->]. apply str_in_spec. by exists [], k. Qed.

(** ** Digit normalisation *)

Lemma maketrans_acc_lookup (m : gmap N N) (kvs : list (N * N)) (c : N) :
  c ∉ kvs.*1 →
  foldl (λ m kv, <[kv.1 := kv.2]> m) m kvs !! c = m !! c.
Proof.
  revert m. induction kvs as [|[k v] kvs IH]; intros m Hc; [done|].
  simpl in *. apply not_elem_of_cons in Hc as [Hck Hc].
  rewrite IH by done. by rewrite lookup_insert_ne.
Qed.

Lemma BANGLA_TO_ENGLISH_other (c : N) :
  c ∉ BANGLA_DIGITS → BANGLA_TO_ENGLISH !! c = None.
Proof.
  intros Hc. unfold BANGLA_TO_ENGLISH, maketrans.
  rewrite maketrans_acc_lookup; [done|].
  by rewrite fst_zip.
Qed.

Lemma BANGLA_TO_ENGLISH_digit (k : nat) (c : N) :
  BANGLA_DIGITS !! k = Some c →
  BANGLA_TO_ENGLISH !! c = ASCII_DIGITS !! k ∧ is_Some (ASCII_DIGITS !! k).
Proof.
  intros Hk.
  do 10 (destruct k as [|k];
         [injection Hk as <-; split; [by vm_compute | by eexists]|]).
  discriminate.
Qed.

(** C8. Digit normalisation is a total function on strings; its output has
    the length of its input, position by position a Bangla digit becomes
    the ASCII digit of the same value, and any other code point is
    unchanged. *)
Theorem normalize_digits_total_length_digitwise (s : str) :
  ∃ out : str,
    translate BANGLA_TO_ENGLISH s = out ∧
    length out = length s ∧
    ∀ (i : nat) (c : N), s !! i = Some c →
      ∃ c', out !! i = Some c' ∧
        (∀ k : nat, BANGLA_DIGITS !! k = Some c → ASCII_DIGITS !! k = Some c') ∧
        (c ∉ BANGLA_DIGITS → c' = c).
Proof.
  eexists; split; [reflexivity|]. unfold translate. split.
  { by rewrite length_fmap. }
  intros i c Hi. rewrite list_lookup_fmap, Hi. simpl.
  eexists; split; [reflexivity|]. split.
  - intros k Hk. destruct (BANGLA_TO_ENGLISH_digit k c Hk) as [-> [d Hd]].
    by rewrite Hd.
  - intros Hc. by rewrite BANGLA_TO_ENGLISH_other.
Qed.

Lemma normalize_digits_witness :
  translate BANGLA_TO_ENGLISH (u "৳ ১,২০০") !! 2%nat = Some 0x31
  ∧ translate BANGLA_TO_ENGLISH (u "৳ ১,২০০") !! 0%nat = Some 0x9F3.
Proof.
  destruct (normalize_digits_total_length_digitwise (u "৳ ১,২০০"))
    as (out & <- & _ & H).
  split.
  - destruct (H 2%nat 0x9E7 eq_refl) as (c' & -> & Hd & _).
    symmetry. exact (Hd 1%nat eq_refl).
  - destruct (H 0%nat 0x9F3 eq_refl) as (c' & -> & _ & Ho).
    f_equal. apply Ho. vm_compute. intros Hin.
    repeat (apply elem_of_cons in Hin as [Hin|Hin]; [discriminate|]).
    by apply elem_of_nil in Hin.
Defined.

(** ** The persistence gateway *)

Lemma save_to_db_existing (mobiles : gmap str data) (d r : data) :
  mobiles !! URL d = Some r → (save_to_db mobiles d).2 = mobiles.
Proof.
  intros Hr. unfold save_to_db.
  destruct (from_option sqlite_integer true (Price d)); [|done].
  by rewrite Hr.
Qed.

Lemma save_to_db_ok_lookup (mobiles : gmap str data) (d : data) :
  (save_to_db mobiles d).1 = inr () →
  (save_to_db mobiles d).2 !! URL d =
  Some (default d (mobiles !! URL d)).
Proof.
  unfold save_to_db.
  destruct (from_option sqlite_integer true (Price d)); [|done].
  destruct (mobiles !! URL d) as [r|] eqn:Hr; simpl; intros _.
  - done.
  - by rewrite lookup_insert_eq.
Qed.

(** C3. Saving is first-write-wins: a record whose URL is already a key of
    the table leaves the table as it is, whatever its payload; hence once a
    first record has been saved under a URL, saving a second record under
    the same URL changes nothing, and on a table that did not know the URL
    the stored record is the first one. *)
Theorem save_to_db_first_write_wins
    (mobiles : gmap str data) (d1 d2 : data) :
  URL d1 = URL d2 →
  (∀ r, mobiles !! URL d2 = Some r →
        (save_to_db mobiles d2).2 = mobiles
        ∧ (save_to_db mobiles d2).2 !! URL d2 = Some r)
  ∧ ((save_to_db mobiles d1).1 = inr () →
     (save_to_db (save_to_db mobiles d1).2 d2).2 = (save_to_db mobiles d1).2
     ∧ (mobiles !! URL d1 = None →
        (save_to_db (save_to_db mobiles d1).2 d2).2 !! URL d2 = Some d1)).
Proof.
  intros Hurl. split.
  - intros r Hr. rewrite (save_to_db_existing _ _ _ Hr). done.
  - intros Hok. pose proof (save_to_db_ok_lookup _ _ Hok) as Hl.
    rewrite Hurl in Hl at 1.
    rewrite (save_to_db_existing _ _ _ Hl). split; [done|].
    intros Hnone. rewrite Hl, Hurl in *. by rewrite Hnone.
Qed.

Lemma save_to_db_first_write_wins_witness :
  (save_to_db (save_to_db ∅ first_payload).2 second_payload).2
    !! URL second_payload = Some first_payload.
Proof.
  refine (proj2 (proj2 (save_to_db_first_write_wins ∅ first_payload
                          second_payload _) _) _); vm_compute; reflexivity.
Defined.

(** ** Filtering the known URLs *)

(** C4. [filter_new_urls] returns the subsequence of its input made of the
    URLs that are not stored keys: it is a sublist of the input (order
    kept), a URL is in it exactly when it is in the input and unknown, every
    unknown URL keeps its number of occurrences, and as sets the output is
    contained in the input and disjoint from the known URLs. *)
Theorem filter_new_urls_is_the_unknown_subsequence
    (mobiles : gmap str data) (all_urls : list str) :
  let new_urls := filter_new_urls mobiles all_urls in
  let known := get_existing_urls mobiles in
  new_urls `sublist_of` all_urls
  ∧ (∀ url, url ∈ new_urls ↔ url ∈ all_urls ∧ url ∉ known)
  ∧ (∀ url, occurrences url new_urls =
            if bool_decide (url ∈ known) then 0%nat else occurrences url all_urls)
  ∧ (list_to_set new_urls : gset str) ⊆ list_to_set all_urls
  ∧ (list_to_set new_urls : gset str) ∩ known = ∅.
Proof.
  intros new_urls known. subst new_urls. unfold filter_new_urls. fold known.
  split; [|split; [|split; [|split]]].
  - apply sublist_filter.
  - intros url. by rewrite list_elem_of_filter, (comm and).
  - intros url. rewrite occurrences_filter.
    repeat case_bool_decide; done.
  - intros url. rewrite !elem_of_list_to_set, list_elem_of_filter. tauto.
  - apply set_eq. intros url.
    rewrite elem_of_intersection, elem_of_list_to_set, list_elem_of_filter.
    rewrite elem_of_empty. tauto.
Qed.

Lemma filter_new_urls_witness :
  filter_new_urls sample_mobiles
    [u "https://bikroy.com/bn/ad/b"; u "https://bikroy.com/bn/ad/a";
     u "https://bikroy.com/bn/ad/b"]
  `sublist_of`
    [u "https://bikroy.com/bn/ad/b"; u "https://bikroy.com/bn/ad/a";
     u "https://bikroy.com/bn/ad/b"].
Proof.
  exact (proj1 (filter_new_urls_is_the_unknown_subsequence sample_mobiles
    [u "https://bikroy.com/bn/ad/b"; u "https://bikroy.com/bn/ad/a";
     u "https://bikroy.com/bn/ad/b"])).
Defined.

(** ** Loops that cannot raise *)

Lemma index_if_longer_lookup {A} (l : list A) (i : nat) :
  index_if_longer l i = inr (l !! i).
Proof.
  unfold index_if_longer, index.
  destruct (Nat.ltb_spec i (length l)) as [Hlt|Hge].
  - destruct (lookup_lt_is_Some_2 l i Hlt) as [x ->]. done.
  - by rewrite lookup_ge_None_2.
Qed.

(** ** Images *)

Lemma find_all_Forall (crit : node → bool) (l : list node) :
  Forall (λ n, crit n = true) (find_all crit l).
Proof.
  unfold find_all, find_all_ctx. apply Forall_fmap, Forall_forall.
  intros p Hp. by apply list_elem_of_filter in Hp as [? _].
Qed.

Lemma find_all_with_attr (crit : node → bool) (key : str) (l : list node) :
  omap (attr key) (find_all (λ n, crit n && has_attr key n) l) =
  omap (attr key) (find_all crit l).
Proof.
  unfold find_all, find_all_ctx.
  induction (descendants l) as [|[n sibs] ds IH]; [done|].
  rewrite !filter_cons. cbn [fst].
  destruct (crit n) eqn:Hc; cbn [andb]; [|by rewrite !decide_False by done].
  destruct (attr key n) as [v|] eqn:Ha.
  - assert (has_attr key n = true) as Hh.
    { unfold has_attr. rewrite Ha. apply bool_decide_eq_true_2. eauto. }
    rewrite !decide_True by done. simpl. rewrite Ha. f_equal. exact IH.
  - assert (has_attr key n ≠ true) as Hh.
    { unfold has_attr. rewrite Ha. rewrite bool_decide_eq_true.
      by intros [??]. }
    rewrite decide_False by done. rewrite decide_True by done.
    simpl. rewrite Ha. exact IH.
Qed.

Lemma extract_images_loop (imgs : list node) (acc : list str) :
  Forall (λ n, img_with_src n = true) imgs →
  for_each
    (λ img_urls img,
       src ← getattr img (u "src");
       if negb (str_in AVATAR_PREFIX src)
       then mret (img_urls ++ [src])
       else mret img_urls)
    imgs acc
  = inr (acc ++ filter (λ src, str_in AVATAR_PREFIX src = false)
                       (omap (attr (u "src")) imgs)).
Proof.
  intros Himgs. revert acc.
  induction Himgs as [|n imgs Hn _ IH]; intros acc; simpl.
  - by rewrite app_nil_r.
  - unfold img_with_src, has_attr in Hn.
    apply andb_true_iff in Hn as [_ Hsrc].
    apply bool_decide_eq_true in Hsrc as [src Hsrc].
    unfold getattr. rewrite Hsrc. simpl.
    rewrite filter_cons.
    destruct (str_in AVATAR_PREFIX src) eqn:Hin; simpl.
    + rewrite IH. by destruct (decide (true = false)).
    + rewrite IH. destruct (decide (false = false)); [|done].
      by rewrite <- app_assoc.
Qed.

Lemma extract_images_filter (soup : BeautifulSoup) :
  extract_images soup =
  inr (filter (λ src, str_in AVATAR_PREFIX src = false) (img_sources soup)).
Proof.
  unfold extract_images. rewrite extract_images_loop by apply find_all_Forall.
  unfold img_with_src, img_sources. by rewrite find_all_with_attr.
Qed.

(** ** Labelled attributes *)

(** Two closed strings differ. *)
Ltac str_neq :=
  let H := fresh in intros H; vm_compute in H; discriminate H.

Lemma FIELD_MAP_lookup (label key : str) :
  FIELD_MAP !! label = Some key ↔
  (label = LABEL_CONDITION ∧ key = u "Condition")
  ∨ (label = LABEL_MODEL ∧ key = u "Model")
  ∨ (label = LABEL_BRAND ∧ key = u "Brand").
Proof.
  assert (LABEL_BRAND ≠ LABEL_MODEL) as H1 by str_neq.
  assert (LABEL_BRAND ≠ LABEL_CONDITION) as H2 by str_neq.
  assert (LABEL_MODEL ≠ LABEL_CONDITION) as H3 by str_neq.
  unfold FIELD_MAP. rewrite !lookup_insert_Some, lookup_empty.
  revert H1 H2 H3.
  generalize LABEL_BRAND LABEL_MODEL LABEL_CONDITION
             (u "Condition") (u "Model") (u "Brand").
  intros lb lm lc kc km kb H1 H2 H3. split.
  - intros [[<- <-]|[_ [[<- <-]|[_ [[<- <-]|[_ ?]]]]]]; auto. done.
  - intros [[-> ->]|[[-> ->]|[-> ->]]]; auto 10.
Qed.

Lemma FIELD_MAP_inj (label1 label2 key : str) :
  FIELD_MAP !! label1 = Some key → FIELD_MAP !! label2 = Some key →
  label1 = label2.
Proof.
  assert (u "Condition" ≠ u "Model") as H1 by str_neq.
  assert (u "Condition" ≠ u "Brand") as H2 by str_neq.
  assert (u "Model" ≠ u "Brand") as H3 by str_neq.
  rewrite !FIELD_MAP_lookup. revert H1 H2 H3.
  generalize LABEL_BRAND LABEL_MODEL LABEL_CONDITION
             (u "Condition") (u "Model") (u "Brand").
  intros lb lm lc kc km kb H1 H2 H3.
  intros [[-> ->]|[[-> ->]|[-> ->]]] [[-> E]|[[-> E]|[-> E]]];
    congruence.
Qed.

Lemma extract_fields_init_eq :
  extract_fields_init =
  <[u "Brand" := None]>
    (<[u "Model" := None]> (<[u "Condition" := None]> ∅)).
Proof. vm_compute. reflexivity. Qed.

Lemma extract_fields_step_lookup
    (result : gmap str (option str)) (div : node * list node)
    (label key : str) :
  FIELD_MAP !! label = Some key →
  extract_fields_step result div !! key =
  match (if bool_decide (get_text [] div.1 = label)
         then find_next_sibling (u "div") div.2 else None) with
  | Some next_div => Some (Some (get_text [] next_div))
  | None => result !! key
  end.
Proof.
  intros Hkey. unfold extract_fields_step.
  case_bool_decide as Htext.
  - rewrite Htext, Hkey.
    destruct (find_next_sibling _ _); [by rewrite lookup_insert_eq|done].
  - destruct (FIELD_MAP !! get_text [] div.1) as [key'|] eqn:Hkey'; [|done].
    destruct (find_next_sibling _ _); [|done].
    rewrite lookup_insert_ne; [done|].
    intros ->. destruct Htext. by eapply FIELD_MAP_inj.
Qed.

Lemma extract_fields_loop_lookup
    (divs : list (node * list node)) (result : gmap str (option str))
    (label key : str) :
  FIELD_MAP !! label = Some key →
  foldl extract_fields_step result divs !! key =
  match last (omap (λ div : node * list node,
                      if bool_decide (get_text [] div.1 = label)
                      then find_next_sibling (u "div") div.2 else None) divs) with
  | Some next_div => Some (Some (get_text [] next_div))
  | None => result !! key
  end.
Proof.
  intros Hkey. revert result.
  induction divs as [|div divs IH]; intros result; [done|].
  cbn [foldl]. rewrite IH.
  rewrite (extract_fields_step_lookup _ _ _ _ Hkey). simpl.
  destruct (if bool_decide _ then _ else _) as [next_div|]; [|done].
  rewrite last_cons. by destruct (last _).
Qed.

Lemma extract_fields_step_dom
    (result : gmap str (option str)) (div : node * list node) :
  dom result = ({[ u "Condition"; u "Model"; u "Brand" ]} : gset str) →
  dom (extract_fields_step result div) = dom result.
Proof.
  intros Hdom. unfold extract_fields_step.
  destruct (FIELD_MAP !! _) as [key|] eqn:Hkey; [|done].
  destruct (find_next_sibling _ _); [|done].
  rewrite dom_insert_L. apply FIELD_MAP_lookup in Hkey.
  rewrite Hdom. revert Hkey.
  generalize (u "Condition") (u "Model") (u "Brand"). set_solver.
Qed.

Lemma extract_fields_dom (soup : BeautifulSoup) :
  dom (extract_fields soup) = ({[ u "Condition"; u "Model"; u "Brand" ]} : gset str).
Proof.
  unfold extract_fields.
  assert (dom extract_fields_init
          = ({[ u "Condition"; u "Model"; u "Brand" ]} : gset str)) as Hinit.
  { rewrite extract_fields_init_eq, !dom_insert_L, dom_empty_L.
    generalize (u "Condition") (u "Model") (u "Brand"). set_solver. }
  revert Hinit. generalize extract_fields_init.
  induction (find_all_ctx _ soup) as [|div divs IH]; intros result Hdom; [done|].
  cbn [foldl]. apply IH. by rewrite extract_fields_step_dom.
Qed.

Lemma extract_fields_lookup (soup : BeautifulSoup) (label key : str) :
  FIELD_MAP !! label = Some key →
  extract_fields soup !! key =
  Some (get_text [] <$> last (labelled_siblings label soup)).
Proof.
  intros Hkey. unfold extract_fields, labelled_siblings.
  rewrite (extract_fields_loop_lookup _ _ _ _ Hkey).
  destruct (last _); [done|].
  rewrite extract_fields_init_eq.
  apply FIELD_MAP_lookup in Hkey as [[_ ->]|[[_ ->]|[_ ->]]];
    vm_compute; reflexivity.
Qed.

(** C10. [extract_fields] is a total function whose result has exactly the
    keys Condition, Model and Brand, each holding [None] or a string; the
    value of a key is the text of the sibling read at the last [div], in
    document order, whose text is the key's label and which has a following
    sibling [div] ([None] when there is no such [div]); a [div] without a
    following sibling [div] leaves the result as it was. *)
Theorem extract_fields_three_keys_last_sibling (soup : BeautifulSoup) :
  ∃ result : gmap str (option str),
    extract_fields soup = result
    ∧ dom result = ({[ u "Condition"; u "Model"; u "Brand" ]} : gset str)
    ∧ result !! u "Condition" =
      Some (get_text [] <$> last (labelled_siblings LABEL_CONDITION soup))
    ∧ result !! u "Model" =
      Some (get_text [] <$> last (labelled_siblings LABEL_MODEL soup))
    ∧ result !! u "Brand" =
      Some (get_text [] <$> last (labelled_siblings LABEL_BRAND soup))
    ∧ ∀ (partial : gmap str (option str)) (div : node * list node),
        find_next_sibling (u "div") div.2 = None →
        extract_fields_step partial div = partial.
Proof.
  eexists. split; [reflexivity|]. split; [apply extract_fields_dom|].
  split; [|split; [|split]].
  - apply extract_fields_lookup, FIELD_MAP_lookup. by left.
  - apply extract_fields_lookup, FIELD_MAP_lookup. right. by left.
  - apply extract_fields_lookup, FIELD_MAP_lookup. right. by right.
  - intros partial div Hsib. unfold extract_fields_step. rewrite Hsib.
    by destruct (FIELD_MAP !! _).
Qed.

Lemma extract_fields_witness :
  extract_fields_step (extract_fields page_without_features)
    (el "div" [] [txt "মডেল:"], [el "span" [] [txt "X"]])
  = extract_fields page_without_features.
Proof.
  destruct (extract_fields_three_keys_last_sibling page_without_features)
    as (result & <- & _ & _ & _ & _ & Hstep).
  apply Hstep. reflexivity.
Defined.

(** ** Parsing the price *)

Lemma digit_value_nonneg (c : N) (d : Z) :
  digit_value c = Some d → (0 ≤ d)%Z.
Proof.
  unfold digit_value. destruct (List.find _ _) as [z|]; [|done].
  intros [= <-]. lia.
Qed.

Lemma int_digits_nonneg (s : str) (acc : Z) (after_digit : bool) (n : Z) :
  (0 ≤ acc)%Z → int_digits acc after_digit s = Some n → (0 ≤ n)%Z.
Proof.
  revert acc after_digit.
  induction s as [|c s IH]; intros acc after_digit Hacc; cbn [int_digits].
  - destruct after_digit; [|done]. by intros [= <-].
  - destruct (c =? 0x5F).
    + destruct after_digit; [|done]. by apply IH.
    + destruct (digit_value c) as [d|] eqn:Hd; [|done].
      apply digit_value_nonneg in Hd. apply IH. lia.
Qed.

Lemma py_int_sign (s : str) (p : Z) :
  py_int s = inr p →
  (head (strip_by int_space s) ≠ Some 0x2D → (0 ≤ p)%Z)
  ∧ (head (strip_by int_space s) = Some 0x2D → (p ≤ 0)%Z).
Proof.
  unfold py_int. generalize (strip_by int_space s) as t. intros t.
  unfold int_sign. destruct t as [|c r].
  - destruct (int_digits _ _ _) as [n|] eqn:Hn; [|done].
    intros [= <-]. apply int_digits_nonneg in Hn; [|done].
    split; [lia|done].
  - destruct (N.eqb_spec c 0x2D) as [->|Hminus].
    + destruct (int_digits _ _ _) as [n|] eqn:Hn; [|done].
      intros [= <-]. apply int_digits_nonneg in Hn; [|done].
      split; [done|lia].
    + assert (head (c :: r) ≠ Some 0x2D) as Hhead by (by intros [= ?]).
      destruct (c =? 0x2B);
        (destruct (int_digits _ _ _) as [n|] eqn:Hn; [|done]);
        intros [= <-]; (apply int_digits_nonneg in Hn; [|done]);
        (split; [lia|done]).
Qed.

Lemma lstrip_by_nospace (sp : N → bool) (s : str) :
  Forall (λ c, sp c = false) s → lstrip_by sp s = s.
Proof. destruct 1 as [|c s Hc _]; [done|]. simpl. by rewrite Hc. Qed.

Lemma strip_by_nospace (sp : N → bool) (s : str) :
  Forall (λ c, sp c = false) s → strip_by sp s = s.
Proof.
  intros Hs. unfold strip_by. rewrite (lstrip_by_nospace _ _ Hs).
  rewrite lstrip_by_nospace by by apply Forall_reverse.
  apply reverse_involutive.
Qed.

Lemma BANGLA_TO_ENGLISH_value (c c' : N) :
  BANGLA_TO_ENGLISH !! c = Some c' → c' ∈ ASCII_DIGITS.
Proof.
  destruct (decide (c ∈ BANGLA_DIGITS)) as [Hin|Hnot].
  - apply list_elem_of_lookup in Hin as [k Hk].
    destruct (BANGLA_TO_ENGLISH_digit k c Hk) as [-> [d Hd]].
    intros Hc'. rewrite Hc' in Hd. injection Hd as <-.
    by eapply list_elem_of_lookup_2.
  - by rewrite BANGLA_TO_ENGLISH_other.
Qed.

Lemma ASCII_DIGITS_not_space (c : N) : c ∈ ASCII_DIGITS → isspace c = false.
Proof.
  intros Hc. vm_compute in Hc.
  repeat (apply elem_of_cons in Hc as [->|Hc]; [reflexivity|]).
  by apply elem_of_nil in Hc.
Qed.

Lemma cleaned_price_no_space (text : str) :
  Forall (λ c, int_space c = false)
         (translate BANGLA_TO_ENGLISH (sub_price_noise text)).
Proof.
  unfold translate, sub_price_noise. apply Forall_fmap, Forall_forall.
  intros c Hc. apply list_elem_of_filter in Hc as [Hc _]. simpl.
  assert (isspace (default c (BANGLA_TO_ENGLISH !! c)) = false) as Hsp.
  { destruct (BANGLA_TO_ENGLISH !! c) as [c'|] eqn:Hc'; simpl.
    - by eapply ASCII_DIGITS_not_space, BANGLA_TO_ENGLISH_value.
    - destruct (isspace c); [|done]. destruct Hc. auto. }
  unfold int_space. by rewrite Hsp.
Qed.

Lemma extract_price_sign (soup : BeautifulSoup) (p : Z) :
  extract_price soup = Some p →
  ∃ price_tag, find div_amount soup = Some price_tag ∧
    let cleaned :=
      translate BANGLA_TO_ENGLISH (sub_price_noise (get_text [] price_tag)) in
    py_int cleaned = inr p
    ∧ (head cleaned ≠ Some 0x2D → (0 ≤ p)%Z)
    ∧ (head cleaned = Some 0x2D → (p ≤ 0)%Z).
Proof.
  unfold extract_price. destruct (find div_amount soup) as [tag|]; [|done].
  cbn [get_text_of mbind raises_bind mret raises_ret try_except].
  destruct (py_int _) as [e|p'] eqn:Hint; [done|].
  cbn [try_except mret raises_ret]. intros [= ->].
  exists tag. split; [done|]. cbv zeta. split; [done|].
  pose proof (py_int_sign _ _ Hint) as Hsign.
  by rewrite strip_by_nospace in Hsign by apply cleaned_price_no_space.
Qed.

(** ** The extracted record *)

Lemma raises_bind_inr {A B} (a : A) (k : A → raises B) : (inr a ≫= k) = k a.
Proof. reflexivity. Qed.

Lemma getitem_Some {V} (d : gmap str V) (key : str) (v : V) :
  d !! key = Some v → getitem d key = inr v.
Proof. intros H. unfold getitem. by rewrite H. Qed.

Section ExtractionProperties.

Variable re_search_posted : str → option str.
Variable strptime_strftime : str → raises (str * str).
Variable current_date : str.
Variable json_dumps : list str → str.

Abbreviation parse_date_time' :=
  (parse_date_time re_search_posted strptime_strftime).
Abbreviation extract_data' :=
  (extract_data re_search_posted strptime_strftime current_date json_dumps).

(** The extraction never raises, and this is the dictionary it builds. *)
Lemma extract_data_never_raises (soup : BeautifulSoup) (url : str) :
  extract_data' soup url =
  inr {| URL := url;
         Title := extract_title soup;
         Price := extract_price soup;
         Published_time := (parse_date_time' soup url).1;
         Published_Date := (parse_date_time' soup url).2;
         Seller_name := extract_seller_name soup;
         Condition :=
           get_text [] <$> last (labelled_siblings LABEL_CONDITION soup);
         Model := get_text [] <$> last (labelled_siblings LABEL_MODEL soup);
         Brand := get_text [] <$> last (labelled_siblings LABEL_BRAND soup);
         Features := extract_features soup;
         Description := Some (extract_description soup);
         Location := extract_locations soup !! 0%nat;
         Division := extract_locations soup !! 1%nat;
         Img_urls :=
           json_dumps (filter (λ src, str_in AVATAR_PREFIX src = false)
                              (img_sources soup));
         Date := current_date |}.
Proof.
  unfold extract_data.
  destruct (parse_date_time' soup url) as [published_time published_date].
  rewrite extract_images_filter, raises_bind_inr.
  rewrite (getitem_Some _ _ _
    (extract_fields_lookup soup LABEL_CONDITION (u "Condition")
       (proj2 (FIELD_MAP_lookup _ _) (or_introl (conj eq_refl eq_refl))))).
  rewrite raises_bind_inr.
  rewrite (getitem_Some _ _ _
    (extract_fields_lookup soup LABEL_MODEL (u "Model")
       (proj2 (FIELD_MAP_lookup _ _)
          (or_intror (or_introl (conj eq_refl eq_refl)))))).
  rewrite raises_bind_inr.
  rewrite (getitem_Some _ _ _
    (extract_fields_lookup soup LABEL_BRAND (u "Brand")
       (proj2 (FIELD_MAP_lookup _ _)
          (or_intror (or_intror (conj eq_refl eq_refl)))))).
  rewrite raises_bind_inr.
  by rewrite !index_if_longer_lookup, !raises_bind_inr.
Qed.

Lemma parse_date_time_without_div (soup : BeautifulSoup) (url : str) :
  find (has_name (u "div")) soup = None →
  parse_date_time' soup url = (None, None).
Proof. intros Hdiv. unfold parse_date_time. by rewrite Hdiv. Qed.

Lemma parse_date_time_without_match
    (soup : BeautifulSoup) (url : str) (div : node) :
  find (has_name (u "div")) soup = Some div →
  re_search_posted (get_text (u " ") div) = None →
  parse_date_time' soup url = (None, None).
Proof.
  intros Hdiv Hre. unfold parse_date_time. rewrite Hdiv, Hre.
  by destruct (str_in _ url).
Qed.

(** C5 (as the code has it). Image extraction never raises and returns,
    in document order, the [src] values of the image elements in which
    the avatar address does not occur anywhere; so no extracted address
    contains it, in particular none starts with it, and the record carries
    the encoding of exactly this list. *)
Theorem extract_images_drops_sources_containing_avatar_prefix
    (soup : BeautifulSoup) :
  ∃ img_urls : list str,
    extract_images soup = inr img_urls
    ∧ img_urls = filter (λ src, str_in AVATAR_PREFIX src = false)
                        (img_sources soup)
    ∧ img_urls `sublist_of` img_sources soup
    ∧ Forall (λ src, (¬ ∃ a b, src = a ++ AVATAR_PREFIX ++ b)
                     ∧ ¬ AVATAR_PREFIX `prefix_of` src) img_urls
    ∧ ∀ url d, extract_data' soup url = inr d →
               Img_urls d = json_dumps img_urls.
Proof.
  eexists. split; [apply extract_images_filter|].
  split; [done|]. split; [apply sublist_filter|]. split.
  - apply Forall_forall. intros src Hsrc.
    apply list_elem_of_filter in Hsrc as [Hnot _].
    split.
    + intros Hin. apply str_in_spec in Hin. congruence.
    + intros Hpre. apply str_in_prefix in Hpre. congruence.
  - intros url d. rewrite extract_data_never_raises. by intros [= <-].
Qed.

(** C6 (as the code has it). The extraction never raises.  A field whose
    markup is missing is [None], except the description, which is then
    the empty string, and the image list, which is then the encoding of
    the empty list.  Without a features container the features are
    [None] and every other field is what its own block reads. *)
Theorem extract_data_defaults_on_missing_markup
    (soup : BeautifulSoup) (url : str) :
  ∃ d : data,
    extract_data' soup url = inr d
    ∧ URL d = url
    ∧ Date d = current_date
    ∧ (find h1_title soup = None → Title d = None)
    ∧ (find div_amount soup = None → Price d = None)
    ∧ (find (has_name (u "div")) soup = None →
       Published_time d = None ∧ Published_Date d = None)
    ∧ (∀ div, find (has_name (u "div")) soup = Some div →
              re_search_posted (get_text (u " ") div) = None →
              Published_time d = None ∧ Published_Date d = None)
    ∧ (find div_contact_name soup = None → Seller_name d = None)
    ∧ (labelled_siblings LABEL_CONDITION soup = [] → Condition d = None)
    ∧ (labelled_siblings LABEL_MODEL soup = [] → Model d = None)
    ∧ (labelled_siblings LABEL_BRAND soup = [] → Brand d = None)
    ∧ (find div_subtitle_wrapper soup = None →
       Location d = None ∧ Division d = None)
    ∧ (img_sources soup = [] → Img_urls d = json_dumps [])
    ∧ (find div_description soup = None → Description d = Some [])
    ∧ (find div_features soup = None →
       Features d = None
       ∧ Title d = extract_title soup
       ∧ Price d = extract_price soup
       ∧ (Published_time d, Published_Date d) = parse_date_time' soup url
       ∧ Seller_name d = extract_seller_name soup
       ∧ Condition d =
         get_text [] <$> last (labelled_siblings LABEL_CONDITION soup)
       ∧ Model d = get_text [] <$> last (labelled_siblings LABEL_MODEL soup)
       ∧ Brand d = get_text [] <$> last (labelled_siblings LABEL_BRAND soup)
       ∧ Description d = Some (extract_description soup)
       ∧ Location d = extract_locations soup !! 0%nat
       ∧ Division d = extract_locations soup !! 1%nat
       ∧ Img_urls d =
         json_dumps (filter (λ src, str_in AVATAR_PREFIX src = false)
                            (img_sources soup))).
Proof.
  eexists. split; [apply extract_data_never_raises|]. cbn [URL Date
    Title Price Published_time Published_Date Seller_name Condition Model
    Brand Features Description Location Division Img_urls].
  split; [done|]. split; [done|].
  split. { intros H. unfold extract_title. by rewrite H. }
  split. { intros H. unfold extract_price. by rewrite H. }
  split. { intros H. by rewrite parse_date_time_without_div. }
split. { intros div Hdiv Hre. by rewrite (parse_date_time_without_match _ _ div). }
  split. { intros H. unfold extract_seller_name. by rewrite H. }
  split. { by intros ->. }
  split. { by intros ->. }
  split. { by intros ->. }
  split. { intros H. unfold extract_locations. by rewrite H. }
  split. { by intros ->. }
  split. { intros H. unfold extract_description. by rewrite H. }
  intros H. split. { unfold extract_features. by rewrite H. }
  repeat split. by destruct (parse_date_time' soup url).
Qed.

(** C7 (as the code has it). When the record has a price, the price is
    the integer that [int()] reads in the cleaned text of the price
    block; it is non-negative unless that text starts with a minus sign,
    and then it is not positive. *)
Theorem extracted_price_sign_follows_text
    (soup : BeautifulSoup) (url : str) (d : data) (p : Z) :
  extract_data' soup url = inr d →
  Price d = Some p →
  ∃ price_tag, find div_amount soup = Some price_tag ∧
    let cleaned :=
      translate BANGLA_TO_ENGLISH (sub_price_noise (get_text [] price_tag)) in
    py_int cleaned = inr p
    ∧ (head cleaned ≠ Some 0x2D → (0 ≤ p)%Z)
    ∧ (head cleaned = Some 0x2D → (p ≤ 0)%Z).
Proof.
  rewrite extract_data_never_raises. intros [= <-]. cbn [Price].
  apply extract_price_sign.
Qed.

End ExtractionProperties.

(** ** The extraction on the sample pages *)

(** C5, the claim as stated fails: an image whose address contains the
    avatar address without starting with it is dropped all the same. *)
Lemma extract_images_drops_an_address_not_starting_with_prefix :
  ∃ src,
    img_sources page_proxied_avatar = [src]
    ∧ startswith src AVATAR_PREFIX = false
    ∧ extract_images page_proxied_avatar = inr []
    ∧ extract_images page_proxied_avatar ≠
      inr (filter (λ src, startswith src AVATAR_PREFIX = false)
                  (img_sources page_proxied_avatar)).
Proof.
  eexists. split; [vm_compute; reflexivity|].
  split; [vm_compute; reflexivity|].
  split; [vm_compute; reflexivity|].
  vm_compute. discriminate.
Qed.

Lemma extract_images_witness :
  ∃ d, sample_extract_data page_without_features sample_url = inr d
       ∧ Img_urls d =
         sample_json_dumps [u "https://i.bikroy-st.com/nokia-3310/1.jpg"].
Proof.
  destruct (extract_images_drops_sources_containing_avatar_prefix
              sample_re_search_posted sample_strptime_strftime
              sample_current_date sample_json_dumps page_without_features)
    as (img_urls & _ & Heq & _ & _ & Hrec).
  eexists. split; [apply extract_data_never_raises|].
  rewrite (Hrec sample_url _ (extract_data_never_raises _ _ _ _ _ _)), Heq.
  vm_compute. reflexivity.
Defined.

(** C6, the claim as stated fails: without a description container the
    description is the empty string, not [None]. *)
Lemma extract_data_description_is_never_absent :
  find div_description page_without_description = None
  ∧ ∃ d, sample_extract_data page_without_description sample_url = inr d
         ∧ Description d = Some []
         ∧ Description d ≠ None.
Proof.
  split; [vm_compute; reflexivity|].
  eexists. split; [vm_compute; reflexivity|].
  split; [reflexivity|discriminate].
Qed.

Lemma extract_data_witness :
  ∃ d, sample_extract_data page_without_features sample_url = inr d
       ∧ Features d = None
       ∧ Title d = Some (u "Nokia 3310")
       ∧ Price d = Some 1200%Z
       ∧ Description d = Some (u "Good phone" ++ [0x0A] ++ u "Call me").
Proof.
  destruct (extract_data_defaults_on_missing_markup
              sample_re_search_posted sample_strptime_strftime
              sample_current_date sample_json_dumps
              page_without_features sample_url)
    as (d & Hd & _ & _ & _ & _ & _ & _ & _ & _ & _ & _ & _ & _ & _ & Hfeat).
  destruct Hfeat as (HF & HT & HP & _ & _ & _ & _ & _ & HD & _);
    [vm_compute; reflexivity|].
  exists d. rewrite HF, HT, HP, HD.
  split; [exact Hd|]. repeat split; vm_compute; reflexivity.
Defined.

(** C7, the claim as stated fails: a price block with a minus sign gives
    a negative price. *)
Lemma extracted_price_can_be_negative :
  ∃ d, sample_extract_data page_negative_price sample_url = inr d
       ∧ Price d = Some (-500)%Z
       ∧ ¬ (0 ≤ -500)%Z.
Proof.
  eexists. split; [vm_compute; reflexivity|].
  split; [reflexivity|lia].
Qed.

Lemma extracted_price_witness :
  ∃ price_tag, find div_amount page_without_features = Some price_tag ∧
    let cleaned :=
      translate BANGLA_TO_ENGLISH (sub_price_noise (get_text [] price_tag)) in
    py_int cleaned = inr 1200%Z
    ∧ (head cleaned ≠ Some 0x2D → (0 ≤ 1200)%Z)
    ∧ (head cleaned = Some 0x2D → (1200 ≤ 0)%Z).
Proof.
  refine (extracted_price_sign_follows_text
            sample_re_search_posted sample_strptime_strftime
            sample_current_date sample_json_dumps
            page_without_features sample_url _ 1200
            (extract_data_never_raises _ _ _ _ _ _) _).
  vm_compute. reflexivity.
Defined.

(** ** The detail fetcher *)

Lemma occurrences_concat `{EqDecision A} (x : A) (ls : list (list A)) :
  occurrences x (concat ls) = sum_list_with (occurrences x) ls.
Proof.
  induction ls as [|l ls IH]; [done|].
  simpl. by rewrite occurrences_app, IH.
Qed.

Lemma foldl_app_concat {A} (acc : list A) (ls : list (list A)) :
  foldl (λ all_links result, all_links ++ result) acc ls = acc ++ concat ls.
Proof.
  revert acc. induction ls as [|l ls IH]; intros acc; simpl.
  - by rewrite app_nil_r.
  - by rewrite IH, app_assoc.
Qed.

Lemma occurrences_not_elem_of `{EqDecision A} (x : A) (l : list A) :
  x ∉ l → occurrences x l = 0%nat.
Proof.
  induction l as [|y l IH]; [done|].
  intros [Hxy Hl]%not_elem_of_cons. rewrite occurrences_cons, IH by done.
  by rewrite bool_decide_eq_false_2.
Qed.

Lemma attempts_app (url : str) (tr1 tr2 : list event) :
  attempts url (tr1 ++ tr2) = (attempts url tr1 + attempts url tr2)%nat.
Proof. unfold attempts. by rewrite filter_app, length_app. Qed.

Section FetcherProperties.

Variable session_get : str → nat → outcome.
Variable randint : str → nat → Z.
Variable re_search_posted : str → option str.
Variable strptime_strftime : str → raises (str * str).
Variable current_date : str.
Variable json_dumps : list str → str.

Abbreviation extract_data' :=
  (extract_data re_search_posted strptime_strftime current_date json_dumps).
Abbreviation clean_html' :=
  (clean_html session_get randint re_search_posted strptime_strftime
              current_date json_dumps).
Abbreviation safe_clean' :=
  (safe_clean session_get randint re_search_posted strptime_strftime
              current_date json_dumps).
Abbreviation gather_safe_clean' :=
  (gather_safe_clean session_get randint re_search_posted strptime_strftime
                     current_date json_dumps).
Abbreviation scrape_mobile_inf' :=
  (scrape_mobile_inf session_get randint re_search_posted strptime_strftime
                     current_date json_dumps).
Abbreviation main' :=
  (main session_get randint re_search_posted strptime_strftime
        current_date json_dumps).

(** One unfolding of [clean_html], by the outcome of the request. *)
Lemma clean_html_unfold_outcome (url : str) (retry_count : nat) (st : state) :
  clean_html' url retry_count st =
  match session_get url retry_count with
  | Response status soup =>
    if bool_decide (status ≠ 200%Z)
    then (inr PyNone, emit (Get url retry_count) st)
    else
      match extract_data' soup url with
      | inl e => (inl e, emit (Get url retry_count) st)
      | inr d =>
        match save_to_db (mobiles (emit (Get url retry_count) st)) d with
        | (inr _, m) =>
          (inr PyTrue, set_mobiles m (emit (Get url retry_count) st))
        | (inl _, m) =>
          (inr PyNone, set_mobiles m (emit (Get url retry_count) st))
        end
      end
  | TimeoutError | OtherException =>
    if decide (retry_count < MAX_RETRIES)%nat
    then clean_html' url (retry_count + 1)
           (emit (Sleep (randint url retry_count))
                 (emit (Get url retry_count) st))
    else (inr PyNone, emit (Get url retry_count) st)
  end.
Proof.
  rewrite clean_html_equation_1.
  destruct (session_get url retry_count); [reflexivity| |];
    unfold clean_html_unfold_clause_1;
    by destruct (decide (retry_count < MAX_RETRIES)%nat).
Qed.

(** What one call of [clean_html] does to the state: it returns, it
    leaves [failed_urls] and the report alone, and it adds events, all
    about its own URL, one of them the request at [retry_count]. *)
Lemma clean_html_returns (url : str) (retry_count : nat) (st : state) :
  ∃ r m evs,
    clean_html' url retry_count st =
    (inr r, mk_state m (failed_urls st) (trace st ++ evs) (failed_urls_file st))
    ∧ Forall (λ e, ∀ url' rc, e = Get url' rc →
                     url' = url ∧ (retry_count ≤ rc)%nat) evs
    ∧ occurrences (Get url retry_count) evs = 1%nat.
Proof.
  remember (MAX_RETRIES - retry_count)%nat as k eqn:Hk.
  revert retry_count st Hk.
  induction k as [k IH] using lt_wf_ind. intros retry_count st Hk.
  assert (Forall (λ e, ∀ url' rc, e = Get url' rc →
                    url' = url ∧ (retry_count ≤ rc)%nat)
                 [Get url retry_count]) as Hone.
  { apply Forall_singleton. by intros url' rc [= -> ->]. }
  assert (occurrences (Get url retry_count) [Get url retry_count] = 1%nat)
    as Hocc.
  { rewrite occurrences_cons, occurrences_nil.
    by rewrite bool_decide_eq_true_2. }
  assert ((retry_count < MAX_RETRIES)%nat →
          ∃ r m evs,
            clean_html' url (retry_count + 1)
              (emit (Sleep (randint url retry_count))
                    (emit (Get url retry_count) st)) =
            (inr r, mk_state m (failed_urls st) (trace st ++ evs)
                             (failed_urls_file st))
            ∧ Forall (λ e, ∀ url' rc, e = Get url' rc →
                             url' = url ∧ (retry_count ≤ rc)%nat) evs
            ∧ occurrences (Get url retry_count) evs = 1%nat) as Hretry.
  { intros Hlt.
    edestruct (IH (MAX_RETRIES - (retry_count + 1))%nat)
      as (r & m & evs & -> & Hevs & _); [lia|reflexivity|].
    exists r, m,
      ([Get url retry_count; Sleep (randint url retry_count)] ++ evs).
    split; [|split].
    - simpl. by rewrite <- !app_assoc.
    - apply Forall_app. split.
      + apply Forall_cons. split; [by intros url' rc [= -> ->]|].
        apply Forall_singleton. by intros url' rc [=].
      + eapply Forall_impl; [exact Hevs|].
        intros e He url' rc Heq. destruct (He url' rc Heq).
        split; [done|lia].
    - rewrite occurrences_app, !occurrences_cons, occurrences_nil.
      rewrite bool_decide_eq_true_2 by done.
      rewrite bool_decide_eq_false_2 by done.
      rewrite occurrences_not_elem_of; [done|].
      intros Hin. rewrite Forall_forall in Hevs.
      destruct (Hevs _ Hin url retry_count eq_refl). lia. }
  rewrite clean_html_unfold_outcome.
  destruct (session_get url retry_count) as [status soup| |].
  - case_bool_decide.
    + by exists PyNone, (mobiles st), [Get url retry_count].
    + rewrite extract_data_never_raises.
      destruct (save_to_db _ _) as [[e|[]] m].
      * by exists PyNone, m, [Get url retry_count].
      * by exists PyTrue, m, [Get url retry_count].
  - destruct (decide (retry_count < MAX_RETRIES)%nat) as [Hlt|Hge];
      [by apply Hretry|].
    by exists PyNone, (mobiles st), [Get url retry_count].
  - destruct (decide (retry_count < MAX_RETRIES)%nat) as [Hlt|Hge];
      [by apply Hretry|].
    by exists PyNone, (mobiles st), [Get url retry_count].
Qed.

Abbreviation timeout_events' := (timeout_events randint).

Lemma clean_html_always_timeout (url : str) (st : state) :
  (∀ retry_count, session_get url retry_count = TimeoutError) →
  clean_html' url 0 st =
  (inr PyNone,
   mk_state (mobiles st) (failed_urls st) (trace st ++ timeout_events' url)
            (failed_urls_file st)).
Proof.
  intros Hto. unfold timeout_events.
  rewrite clean_html_unfold_outcome, Hto.
  rewrite decide_True by (unfold MAX_RETRIES; lia).
  rewrite clean_html_unfold_outcome, Hto.
  rewrite decide_True by (unfold MAX_RETRIES; lia).
  rewrite clean_html_unfold_outcome, Hto.
  rewrite decide_True by (unfold MAX_RETRIES; lia).
  rewrite clean_html_unfold_outcome, Hto.
  rewrite decide_False by (unfold MAX_RETRIES; lia).
  unfold emit. simpl. by rewrite <- !app_assoc.
Qed.

Lemma attempts_timeout_events (url : str) :
  attempts url (timeout_events' url) = 4%nat.
Proof.
  unfold attempts, timeout_events.
  rewrite !filter_cons, filter_nil. cbn [is_get].
  rewrite !(decide_True (P := bool_decide (url = url) = true))
    by (by apply bool_decide_eq_true_2).
  rewrite !(decide_False (P := false = true)) by done.
  reflexivity.
Qed.

Lemma attempts_other_url (url u0 : str) (retry_count : nat)
    (evs : list event) :
  url ≠ u0 →
  Forall (λ e, ∀ url' rc, e = Get url' rc →
                 url' = url ∧ (retry_count ≤ rc)%nat) evs →
  attempts u0 evs = 0%nat ∧ ∀ rc, occurrences (Get u0 rc) evs = 0%nat.
Proof.
  intros Hne Hevs. split.
  - unfold attempts. induction Hevs as [|e evs He _ IH]; [done|].
    rewrite filter_cons. destruct e as [url' rc|secs]; cbn [is_get].
    + destruct (He url' rc eq_refl) as [-> _].
      rewrite decide_False; [done|].
      by rewrite bool_decide_eq_false_2.
    + by rewrite decide_False.
  - intros rc. apply occurrences_not_elem_of. intros Hin.
    rewrite Forall_forall in Hevs.
    by destruct (Hevs _ Hin u0 rc eq_refl).
Qed.

(** What one task does. *)
Lemma safe_clean_returns (link : str) (st : state) :
  ∃ m fl evs,
    safe_clean' link st =
    (inr (), mk_state m (failed_urls st ++ fl) (trace st ++ evs)
                      (failed_urls_file st))
    ∧ (fl = [] ∨ fl = [link])
    ∧ Forall (λ e, ∀ url' rc, e = Get url' rc →
                     url' = link ∧ (0 ≤ rc)%nat) evs
    ∧ occurrences (Get link 0) evs = 1%nat
    ∧ ((∀ retry_count, session_get link retry_count = TimeoutError) →
       m = mobiles st ∧ fl = [link] ∧ evs = timeout_events' link).
Proof.
  unfold safe_clean.
  destruct (clean_html_returns link 0 st) as (r & m & evs & Heq & Hevs & Hocc).
  rewrite Heq. destruct r.
  - exists m, [], evs. rewrite app_nil_r.
    split; [done|]. split; [by left|]. split; [done|]. split; [done|].
    intros Hto. rewrite (clean_html_always_timeout _ _ Hto) in Heq.
    discriminate.
  - exists m, [link], evs. unfold set_failed_urls. simpl.
    split; [done|]. split; [by right|]. split; [done|]. split; [done|].
    intros Hto. rewrite (clean_html_always_timeout _ _ Hto) in Heq.
    injection Heq as <- Heq. by apply app_inv_head in Heq.
Qed.

Lemma occurrences_singleton_or_nil (u0 link : str) (fl : list str) :
  fl = [] ∨ fl = [link] → link ≠ u0 → occurrences u0 fl = 0%nat.
Proof.
  intros [->| ->] Hne; [done|].
  rewrite occurrences_cons, occurrences_nil.
  by rewrite bool_decide_eq_false_2.
Qed.

(** What the tasks of a run do, counted for one URL [u0]. *)
Lemma gather_safe_clean_returns (u0 : str) (urls : list str) (st : state) :
  ∃ m fl evs,
    gather_safe_clean' urls st =
    (inr (), mk_state m (failed_urls st ++ fl) (trace st ++ evs)
                      (failed_urls_file st))
    ∧ occurrences (Get u0 0) evs = occurrences u0 urls
    ∧ ((∀ retry_count, session_get u0 retry_count = TimeoutError) →
       occurrences u0 fl = occurrences u0 urls
       ∧ attempts u0 evs = (4 * occurrences u0 urls)%nat).
Proof.
  revert st. induction urls as [|link urls IH]; intros st.
  - exists (mobiles st), [], []. simpl. rewrite !app_nil_r.
    destruct st. by repeat split.
  - cbn [gather_safe_clean].
    destruct (safe_clean_returns link st)
      as (m1 & fl1 & evs1 & -> & Hfl1 & Hevs1 & Hocc1 & Hto1).
    destruct (IH (mk_state m1 (failed_urls st ++ fl1) (trace st ++ evs1)
                           (failed_urls_file st)))
      as (m2 & fl2 & evs2 & -> & Hocc2 & Hto2).
    exists m2, (fl1 ++ fl2), (evs1 ++ evs2). cbn [failed_urls trace failed_urls_file].
    rewrite <- !app_assoc. split; [done|].
    rewrite !occurrences_app, attempts_app, !occurrences_cons, Hocc2.
    destruct (decide (link = u0)) as [->|Hne].
    + rewrite bool_decide_eq_true_2 by done. rewrite Hocc1.
      split; [done|]. intros Hto.
      destruct (Hto1 Hto) as (_ & -> & ->). destruct (Hto2 Hto) as [-> ->].
      rewrite attempts_timeout_events, occurrences_cons, occurrences_nil.
      rewrite bool_decide_eq_true_2 by done. lia.
    + rewrite bool_decide_eq_false_2 by done.
      destruct (attempts_other_url _ _ _ _ Hne Hevs1) as [-> ->].
      split; [done|]. intros Hto. destruct (Hto2 Hto) as [-> ->].
      rewrite (occurrences_singleton_or_nil _ _ _ Hfl1 Hne). lia.
Qed.

(** What a run of the tasks does. *)
Lemma scrape_mobile_inf_returns (u0 : str) (urls : list str) (st : state) :
  ∃ m fl evs,
    scrape_mobile_inf' urls st =
    (inr (), mk_state m fl (trace st ++ evs)
                      (if bool_decide (fl ≠ [])
                       then Some (join [0x0A] fl) else failed_urls_file st))
    ∧ occurrences (Get u0 0) evs = occurrences u0 urls
    ∧ ((∀ retry_count, session_get u0 retry_count = TimeoutError) →
       occurrences u0 fl = occurrences u0 urls
       ∧ attempts u0 evs = (4 * occurrences u0 urls)%nat).
Proof.
  unfold scrape_mobile_inf.
  destruct (gather_safe_clean_returns u0 urls (set_failed_urls [] st))
    as (m & fl & evs & -> & Hocc & Hto).
  cbn [set_failed_urls failed_urls trace failed_urls_file app].
  exists m, fl, evs. split; [|done].
  by case_bool_decide.
Qed.

(** C1 (as the code has it). A detail URL answered with a status other
    than 200 is requested once and never retried, nothing is stored, and
    [clean_html] returns [None]; the task therefore appends the URL to
    [failed_urls], and a run on this URL alone reports it as failed. *)
Theorem non_200_is_skipped_without_retry_and_recorded_as_failed
    (url : str) (status : Z) (soup : BeautifulSoup) (st : state) :
  session_get url 0 = Response status soup →
  status ≠ 200%Z →
  clean_html' url 0 st = (inr PyNone, emit (Get url 0) st)
  ∧ safe_clean' url st =
    (inr (), set_failed_urls (failed_urls st ++ [url]) (emit (Get url 0) st))
  ∧ scrape_mobile_inf' [url] st =
    (inr (), mk_state (mobiles st) [url] (trace st ++ [Get url 0]) (Some url)).
Proof.
  intros Hget Hstatus.
  assert (∀ st, clean_html' url 0 st = (inr PyNone, emit (Get url 0) st))
    as Hclean.
  { intros st0. rewrite clean_html_unfold_outcome, Hget.
    by rewrite bool_decide_eq_true_2. }
  assert (∀ st, safe_clean' url st =
                (inr (), set_failed_urls (failed_urls st ++ [url])
                                         (emit (Get url 0) st))) as Hsafe.
  { intros st0. unfold safe_clean. by rewrite Hclean. }
  split; [done|]. split; [done|].
  unfold scrape_mobile_inf. cbn [gather_safe_clean]. rewrite Hsafe.
  cbn [set_failed_urls emit failed_urls trace mobiles failed_urls_file app].
  by rewrite bool_decide_eq_true_2.
Qed.

(** C2. With [MAX_RETRIES] equal to 3, a detail URL whose every request
    times out is requested exactly four times, with a sleep before each
    of the three retries, and then [clean_html] returns [None]; its task
    appends the URL to [failed_urls] exactly once; so in a run the URL
    appears in [failed_urls] once per task started for it, and four
    requests per task are made for it. *)
Theorem always_timeout_four_attempts_then_one_failure
    (url : str) (urls : list str) (st : state) :
  (∀ retry_count, session_get url retry_count = TimeoutError) →
  MAX_RETRIES = 3%nat
  ∧ clean_html' url 0 st =
    (inr PyNone,
     mk_state (mobiles st) (failed_urls st)
              (trace st ++ timeout_events' url) (failed_urls_file st))
  ∧ attempts url (timeout_events' url) = 4%nat
  ∧ safe_clean' url st =
    (inr (),
     mk_state (mobiles st) (failed_urls st ++ [url])
              (trace st ++ timeout_events' url) (failed_urls_file st))
  ∧ (scrape_mobile_inf' urls st).1 = inr ()
  ∧ occurrences url (failed_urls (scrape_mobile_inf' urls st).2)
    = occurrences url urls
  ∧ attempts url (trace (scrape_mobile_inf' urls st).2)
    = (attempts url (trace st) + 4 * occurrences url urls)%nat.
Proof.
  intros Hto. split; [done|].
  split; [by apply clean_html_always_timeout|].
  split; [apply attempts_timeout_events|].
  split.
  { destruct (safe_clean_returns url st)
      as (m & fl & evs & -> & _ & _ & _ & Heq).
    by destruct (Heq Hto) as (-> & -> & ->). }
  destruct (scrape_mobile_inf_returns url urls st)
    as (m & fl & evs & -> & _ & Hcount).
  destruct (Hcount Hto) as [Hfl Hevs].
  cbn [fst snd failed_urls trace]. rewrite attempts_app, Hevs.
  done.
Qed.

(** C9. Nothing removes duplicates before the detail fetcher: the links
    collected are the links of the pages put end to end, so a URL occurs
    in them as often as on all pages together; filtering keeps every
    occurrence of a URL that is not stored; and a run starts one task,
    hence one first request, per occurrence. *)
Theorem duplicate_urls_are_fetched_once_per_occurrence
    (u0 : str) (st : state) :
  u0 ∉ get_existing_urls (mobiles st) →
  occurrences u0 (scraping_mobile_links session_get)
  = sum_list_with (occurrences u0)
                  (scrape_page session_get <$> seq 1 MAX_PAGES)
  ∧ (∀ urls, occurrences u0 (filter_new_urls (mobiles st) urls)
             = occurrences u0 urls)
  ∧ (∀ urls, occurrences (Get u0 0) (trace (scrape_mobile_inf' urls st).2)
             = (occurrences (Get u0 0) (trace st) + occurrences u0 urls)%nat)
  ∧ occurrences (Get u0 0) (trace (main' st).2)
    = (occurrences (Get u0 0) (trace st)
       + occurrences u0 (scraping_mobile_links session_get))%nat.
Proof.
  intros Hnew.
  assert (∀ urls, occurrences u0 (filter_new_urls (mobiles st) urls)
                  = occurrences u0 urls) as Hfilter.
  { intros urls. unfold filter_new_urls. rewrite occurrences_filter.
    by rewrite bool_decide_eq_true_2. }
  assert (∀ urls,
            occurrences (Get u0 0) (trace (scrape_mobile_inf' urls st).2)
            = (occurrences (Get u0 0) (trace st) + occurrences u0 urls)%nat)
    as Hrun.
  { intros urls.
    destruct (scrape_mobile_inf_returns u0 urls st)
      as (m & fl & evs & -> & Hocc & _).
    cbn [snd trace]. by rewrite occurrences_app, Hocc. }
  split; [|split; [done|split; [done|]]].
  - unfold scraping_mobile_links.
    by rewrite foldl_app_concat, app_nil_l, occurrences_concat.
  - unfold main. case_bool_decide as Hnil.
    + by rewrite Hrun, Hfilter.
    + rewrite <- Hfilter, Hnil. cbn [snd]. by rewrite occurrences_nil.
Qed.

End FetcherProperties.

(** ** The detail fetcher on the sample networks *)

(** C1, the claim as stated fails: a URL answered with status 404 is in
    [failed_urls] at the end of the run, and in the report. *)
Lemma non_200_url_is_in_failed_urls :
  net_not_found sample_url 0 = Response 404 []
  ∧ sample_url ∈
      failed_urls
        (scrape_mobile_inf net_not_found sample_randint
           sample_re_search_posted sample_strptime_strftime
           sample_current_date sample_json_dumps
           [sample_url] empty_state).2
  ∧ failed_urls_file
      (scrape_mobile_inf net_not_found sample_randint
         sample_re_search_posted sample_strptime_strftime
         sample_current_date sample_json_dumps
         [sample_url] empty_state).2 = Some sample_url.
Proof.
  split; [reflexivity|]. split.
  - vm_compute. constructor.
  - vm_compute. reflexivity.
Qed.

Lemma non_200_witness :
  scrape_mobile_inf net_not_found sample_randint
    sample_re_search_posted sample_strptime_strftime
    sample_current_date sample_json_dumps [sample_url] empty_state
  = (inr (), mk_state ∅ [sample_url] [Get sample_url 0] (Some sample_url)).
Proof.
  refine (proj2 (proj2
    (non_200_is_skipped_without_retry_and_recorded_as_failed
       net_not_found sample_randint sample_re_search_posted
       sample_strptime_strftime sample_current_date sample_json_dumps
       sample_url 404 [] empty_state _ _))).
  - reflexivity.
  - discriminate.
Defined.

Lemma always_timeout_witness :
  occurrences sample_url
    (failed_urls
       (scrape_mobile_inf net_timeout sample_randint
          sample_re_search_posted sample_strptime_strftime
          sample_current_date sample_json_dumps
          [sample_url] empty_state).2) = 1%nat
  ∧ attempts sample_url
      (trace
         (scrape_mobile_inf net_timeout sample_randint
            sample_re_search_posted sample_strptime_strftime
            sample_current_date sample_json_dumps
            [sample_url] empty_state).2) = 4%nat.
Proof.
  destruct (always_timeout_four_attempts_then_one_failure
              net_timeout sample_randint sample_re_search_posted
              sample_strptime_strftime sample_current_date sample_json_dumps
              sample_url [sample_url] empty_state (λ _, eq_refl))
    as (_ & _ & _ & _ & _ & Hfailed & Hattempts).
  rewrite Hfailed, Hattempts. split; vm_compute; reflexivity.
Defined.

Lemma duplicate_urls_witness :
  occurrences (Get sample_url 0)
    (trace
       (main net_duplicate sample_randint sample_re_search_posted
             sample_strptime_strftime sample_current_date sample_json_dumps
             empty_state).2) = 2%nat.
Proof.
  destruct (duplicate_urls_are_fetched_once_per_occurrence
              net_duplicate sample_randint sample_re_search_posted
              sample_strptime_strftime sample_current_date sample_json_dumps
              sample_url empty_state) as (_ & _ & _ & Hmain).
  - unfold get_existing_urls, empty_state. cbn [mobiles].
    rewrite dom_empty_L. apply not_elem_of_empty.
  - rewrite Hmain. vm_compute. reflexivity.
Defined.

(** * Further properties *)

(** ** Saving and the set of known URLs *)

Lemma save_to_db_result (mobiles : gmap str data) (d : data) :
  save_to_db mobiles d =
  if from_option sqlite_integer true (Price d)
  then (inr (), insert_or_ignore mobiles d)
  else (inl OverflowError, mobiles).
Proof.
  unfold save_to_db, insert_or_ignore.
  destruct (from_option _ _ _); [|done]. by destruct (mobiles !! URL d).
Qed.





(** ** Retries *)

Lemma sleeps_app (tr1 tr2 : list event) :
  sleeps (tr1 ++ tr2) = sleeps tr1 ++ sleeps tr2.
Proof. apply omap_app. Qed.

Lemma attempts_cons_get (url : str) (rc : nat) (tr : list event) :
  attempts url (Get url rc :: tr) = S (attempts url tr).
Proof.
  unfold attempts. rewrite filter_cons. cbn [is_get].
  rewrite decide_True; [done|]. by apply bool_decide_eq_true_2.
Qed.

Lemma attempts_cons_sleep (url : str) (seconds : Z) (tr : list event) :
  attempts url (Sleep seconds :: tr) = attempts url tr.
Proof. unfold attempts. rewrite filter_cons. by rewrite decide_False. Qed.

Section FetcherRuns.

Variable session_get : str → nat → outcome.
Variable randint : str → nat → Z.
Variable re_search_posted : str → option str.
Variable strptime_strftime : str → raises (str * str).
Variable current_date : str.
Variable json_dumps : list str → str.

Abbreviation extract_data' :=
  (extract_data re_search_posted strptime_strftime current_date json_dumps).
Abbreviation clean_html' :=
  (clean_html session_get randint re_search_posted strptime_strftime
              current_date json_dumps).
Abbreviation safe_clean' :=
  (safe_clean session_get randint re_search_posted strptime_strftime
              current_date json_dumps).
Abbreviation gather_safe_clean' :=
  (gather_safe_clean session_get randint re_search_posted strptime_strftime
                     current_date json_dumps).
Abbreviation scrape_mobile_inf' :=
  (scrape_mobile_inf session_get randint re_search_posted strptime_strftime
                     current_date json_dumps).
Abbreviation main' :=
  (main session_get randint re_search_posted strptime_strftime
        current_date json_dumps).

Lemma clean_html_failure_step (url : str) (retry_count : nat) (st : state) :
  is_failure (session_get url retry_count) = true →
  clean_html' url retry_count st =
  if decide (retry_count < MAX_RETRIES)%nat
  then clean_html' url (retry_count + 1)
         (emit (Sleep (randint url retry_count))
               (emit (Get url retry_count) st))
  else (inr PyNone, emit (Get url retry_count) st).
Proof.
  intros Hfail. rewrite clean_html_unfold_outcome.
  by destruct (session_get url retry_count).
Qed.

(** A call on a request that is answered, in closed form. *)
Lemma clean_html_response (url : str) (retry_count : nat) (st : state)
    (status : Z) (soup : BeautifulSoup) (d : data) :
  session_get url retry_count = Response status soup →
  extract_data' soup url = inr d →
  clean_html' url retry_count st =
  if bool_decide (status ≠ 200%Z)
  then (inr PyNone, emit (Get url retry_count) st)
  else if from_option sqlite_integer true (Price d)
       then (inr PyTrue,
             mk_state (insert_or_ignore (mobiles st) d) (failed_urls st)
                      (trace st ++ [Get url retry_count]) (failed_urls_file st))
       else (inr PyNone, emit (Get url retry_count) st).
Proof.
  intros Hget Hd. rewrite clean_html_unfold_outcome, Hget, Hd.
  case_bool_decide; [done|]. rewrite save_to_db_result.
  cbn [emit mobiles]. destruct (from_option _ _ _); [done|].
  by destruct st.
Qed.

(** Failed requests are retried one after the other. *)
Lemma clean_html_skip_failures (url : str) (k retry_count : nat) (st : state) :
  (retry_count + k ≤ MAX_RETRIES)%nat →
  (∀ rc, (retry_count ≤ rc < retry_count + k)%nat →
         is_failure (session_get url rc) = true) →
  clean_html' url retry_count st =
  clean_html' url (retry_count + k)
    (mk_state (mobiles st) (failed_urls st)
              (trace st ++ retry_events randint url retry_count k)
              (failed_urls_file st)).
Proof.
  revert retry_count st. induction k as [|k IH]; intros retry_count st Hle Hfail.
  - rewrite Nat.add_0_r. unfold retry_events. simpl. rewrite app_nil_r.
    by destruct st.
  - rewrite clean_html_failure_step by (apply Hfail; lia).
    rewrite decide_True by lia.
    rewrite Nat.add_1_r, IH; [|lia|intros rc Hrc; apply Hfail; lia].
    replace (S retry_count + k)%nat with (retry_count + S k)%nat by lia.
    f_equal. unfold emit, retry_events. cbn [mobiles failed_urls trace
      failed_urls_file seq flat_map]. f_equal.
    by rewrite <- !app_assoc.
Qed.

Lemma retry_events_S (url : str) (retry_count k : nat) :
  retry_events randint url retry_count (S k) =
  [Get url retry_count; Sleep (randint url retry_count)]
  ++ retry_events randint url (S retry_count) k.
Proof. reflexivity. Qed.

Lemma attempts_retry_events (url : str) (retry_count k : nat) :
  attempts url (retry_events randint url retry_count k) = k.
Proof.
  revert retry_count. induction k as [|k IH]; intros retry_count; [done|].
  rewrite retry_events_S. cbn [app].
  by rewrite attempts_cons_get, attempts_cons_sleep, IH.
Qed.

Lemma sleeps_retry_events (url : str) (retry_count k : nat) :
  sleeps (retry_events randint url retry_count k)
  = randint url <$> seq retry_count k.
Proof.
  revert retry_count. induction k as [|k IH]; intros retry_count; [done|].
  rewrite retry_events_S. cbn [app sleeps omap list_omap seq fmap list_fmap].
  f_equal. apply IH.
Qed.

Lemma extract_data_returns (soup : BeautifulSoup) (url : str) :
  ∃ d, extract_data' soup url = inr d ∧ URL d = url.
Proof. eexists. split; [apply extract_data_never_raises|done]. Qed.

(** The whole effect of one call, whatever the network does: some number
    [k] of failed requests, each followed by its sleep, then one last
    request; the table is left alone or gains the page's row. *)
Lemma clean_html_effect (url : str) (retry_count : nat) (st : state) :
  (retry_count ≤ MAX_RETRIES)%nat →
  ∃ k r m,
    (retry_count + k ≤ MAX_RETRIES)%nat
    ∧ (∀ rc, (retry_count ≤ rc < retry_count + k)%nat →
             is_failure (session_get url rc) = true)
    ∧ ((retry_count + k < MAX_RETRIES)%nat →
       is_failure (session_get url (retry_count + k)) = false)
    ∧ clean_html' url retry_count st =
      (inr r,
       mk_state m (failed_urls st)
         (trace st ++ retry_events randint url retry_count k
                   ++ [Get url (retry_count + k)])
         (failed_urls_file st))
    ∧ ((r = PyNone ∧ m = mobiles st)
       ∨ ∃ d, URL d = url ∧ r = PyTrue ∧ m = insert_or_ignore (mobiles st) d).
Proof.
  remember (MAX_RETRIES - retry_count)%nat as n eqn:Hn.
  revert retry_count st Hn.
  induction n as [|n IH]; intros retry_count st Hn Hle.
  - assert (retry_count = MAX_RETRIES) as -> by lia.
    exists 0%nat. rewrite Nat.add_0_r. cbn [retry_events seq flat_map app].
    destruct (is_failure (session_get url MAX_RETRIES)) eqn:Hfail.
    + rewrite clean_html_failure_step by done.
      rewrite decide_False by lia.
      exists PyNone, (mobiles st).
      split; [lia|]. split; [intros rc Hrc; lia|]. split; [intros; lia|].
      split; [reflexivity|]. by left.
    + destruct (session_get url MAX_RETRIES) as [status soup| |] eqn:Hget;
        try discriminate.
      destruct (extract_data_returns soup url) as (d & Hd & Hurl).
      rewrite (clean_html_response _ _ _ _ _ d Hget Hd).
      case_bool_decide;
        [|destruct (from_option sqlite_integer true _) eqn:Hok].
      * exists PyNone, (mobiles st).
        split; [lia|]. split; [intros rc Hrc; lia|]. split; [intros; lia|].
        split; [reflexivity|]. by left.
      * exists PyTrue, (insert_or_ignore (mobiles st) d).
        split; [lia|]. split; [intros rc Hrc; lia|]. split; [intros; lia|].
        split; [reflexivity|]. right.
        by exists d.
      * exists PyNone, (mobiles st).
        split; [lia|]. split; [intros rc Hrc; lia|]. split; [intros; lia|].
        split; [reflexivity|]. by left.
  - destruct (is_failure (session_get url retry_count)) eqn:Hfail.
    + rewrite clean_html_failure_step by done.
      rewrite decide_True by lia. rewrite Nat.add_1_r.
      destruct (IH (S retry_count)
                   (emit (Sleep (randint url retry_count))
                         (emit (Get url retry_count) st)))
        as (k & r & m & Hk & Hfails & Hlast & -> & Hm); [lia|lia|].
      exists (S k), r, m.
      replace (retry_count + S k)%nat with (S retry_count + k)%nat by lia.
      split; [lia|]. split.
      { intros rc Hrc. destruct (decide (rc = retry_count)) as [->|Hne];
          [done|]. apply Hfails. lia. }
      split; [done|]. split; [|done].
      rewrite retry_events_S. cbn [emit mobiles failed_urls trace
        failed_urls_file]. by rewrite <- !app_assoc.
    + exists 0%nat. rewrite Nat.add_0_r. cbn [retry_events seq flat_map app].
      destruct (session_get url retry_count) as [status soup| |] eqn:Hget;
        try discriminate.
      destruct (extract_data_returns soup url) as (d & Hd & Hurl).
      rewrite (clean_html_response _ _ _ _ _ d Hget Hd).
      case_bool_decide;
        [|destruct (from_option sqlite_integer true _) eqn:Hok].
      * exists PyNone, (mobiles st).
        split; [lia|]. split; [intros rc Hrc; lia|].
        split; [intros _; exact Hfail|].
        split; [reflexivity|]. by left.
      * exists PyTrue, (insert_or_ignore (mobiles st) d).
        split; [lia|]. split; [intros rc Hrc; lia|].
        split; [intros _; exact Hfail|].
        split; [reflexivity|]. right.
        by exists d.
      * exists PyNone, (mobiles st).
        split; [lia|]. split; [intros rc Hrc; lia|].
        split; [intros _; exact Hfail|].
        split; [reflexivity|]. by left.
Qed.







Lemma sum_bounded (l : list Z) (hi : Z) :
  Forall (λ x, (x ≤ hi)%Z) l →
  (foldr Z.add 0 l ≤ Z.of_nat (length l) * hi)%Z.
Proof.
  induction 1 as [|x l Hx _ IH]; [done|].
  cbn [foldr length]. lia.
Qed.

(** X2. Whatever the network does, a call of [clean_html] makes at most
    [MAX_RETRIES + 1] requests for its URL: as many as there are failed
    requests in a row from the first one, capped at [MAX_RETRIES], plus
    one; it sleeps once per failed request that is retried, for the
    durations drawn; and when the draws stay below [RETRY_WAIT_MAX], its
    total back-off is at most [MAX_RETRIES * RETRY_WAIT_MAX] seconds. *)
Theorem clean_html_requests_and_sleeps_are_bounded (url : str) (st : state) :
  ∃ k evs,
    (k ≤ MAX_RETRIES)%nat
    ∧ (∀ rc, (rc < k)%nat → is_failure (session_get url rc) = true)
    ∧ ((k < MAX_RETRIES)%nat → is_failure (session_get url k) = false)
    ∧ trace (clean_html' url 0 st).2 = trace st ++ evs
    ∧ evs = retry_events randint url 0 k ++ [Get url k]
    ∧ attempts url evs = (k + 1)%nat
    ∧ sleeps evs = randint url <$> seq 0 k
    ∧ ((∀ rc, (randint url rc ≤ RETRY_WAIT_MAX)%Z) →
       (foldr Z.add 0 (sleeps evs) ≤ Z.of_nat MAX_RETRIES * RETRY_WAIT_MAX)%Z).
Proof.
  destruct (clean_html_effect url 0 st)
    as (k & r & m & Hk & Hfails & Hlast & Heq & _); [lia|].
  rewrite Nat.add_0_l in *.
  exists k, (retry_events randint url 0 k ++ [Get url k]).
  assert (sleeps (retry_events randint url 0 k ++ [Get url k])
          = randint url <$> seq 0 k) as Hsleeps.
  { rewrite sleeps_app, sleeps_retry_events. cbn [sleeps omap list_omap].
    by rewrite app_nil_r. }
  split; [done|]. split; [intros rc Hrc; apply Hfails; lia|].
  split; [done|]. split; [by rewrite Heq|]. split; [done|].
  split.
  { rewrite attempts_app, attempts_retry_events, attempts_cons_get. done. }
  split; [done|]. intros Hdraw. rewrite Hsleeps.
  etrans; [apply (sum_bounded _ RETRY_WAIT_MAX)|].
  - apply Forall_fmap, Forall_forall. intros rc _. apply Hdraw.
  - rewrite length_fmap, length_seq. unfold RETRY_WAIT_MAX. lia.
Qed.

(** X3. A URL whose four requests all fail, by time-out or by any other
    exception, in any mix, is requested four times with a sleep before each
    retry; [clean_html] then returns [None] without touching the table and
    the task appends the URL to [failed_urls]. *)
Theorem all_requests_failing_ends_in_failed_urls (url : str) (st : state) :
  (∀ rc, (rc ≤ MAX_RETRIES)%nat → is_failure (session_get url rc) = true) →
  clean_html' url 0 st =
  (inr PyNone,
   mk_state (mobiles st) (failed_urls st)
            (trace st ++ timeout_events randint url) (failed_urls_file st))
  ∧ safe_clean' url st =
    (inr (),
     mk_state (mobiles st) (failed_urls st ++ [url])
              (trace st ++ timeout_events randint url) (failed_urls_file st)).
Proof.
  intros Hfail.
  assert (clean_html' url 0 st =
          (inr PyNone,
           mk_state (mobiles st) (failed_urls st)
             (trace st ++ timeout_events randint url) (failed_urls_file st)))
    as Hclean.
  { rewrite (clean_html_skip_failures url MAX_RETRIES 0 st);
      [|done|intros rc Hrc; apply Hfail; lia].
    rewrite clean_html_failure_step by (apply Hfail; lia).
    rewrite decide_False by lia.
    unfold emit, retry_events, timeout_events, MAX_RETRIES.
    cbn [mobiles failed_urls trace failed_urls_file seq flat_map app].
    by rewrite <- app_assoc. }
  split; [done|]. unfold safe_clean. by rewrite Hclean.
Qed.



(** ** Runs *)



Lemma grows_within_mono (urls urls' : list str) (m m' : gmap str data) :
  (∀ url, url ∈ urls → url ∈ urls') →
  grows_within urls m m' → grows_within urls' m m'.
Proof.
  intros Hsub (Hrows & Hnew & Hkey). split; [done|]. split; [|done].
  intros key Hkey'. destruct (Hnew key Hkey'); auto.
Qed.


(** X7. A run in which every collected link is already stored does
    nothing: no detail page is requested and the state, report included,
    is left exactly as it was. *)
Theorem main_with_only_known_links_changes_nothing (st : state) :
  (∀ url, url ∈ scraping_mobile_links session_get →
          url ∈ get_existing_urls (mobiles st)) →
  main' st = (inr (), st).
Proof.
  intros Hknown. unfold main.
  assert (filter_new_urls (mobiles st) (scraping_mobile_links session_get) = [])
    as ->; [|by rewrite bool_decide_eq_false_2 by (by intros H; apply H)].
  unfold filter_new_urls.
  destruct (filter _ (scraping_mobile_links session_get)) as [|url new_urls]
    eqn:Hfilter; [done|].
  assert (url ∈ url :: new_urls) as Hin by by left.
  rewrite <- Hfilter in Hin. apply list_elem_of_filter in Hin as [Hnew Hin].
  by destruct (Hnew (Hknown url Hin)).
Qed.

(** ** No link is lost *)




End FetcherRuns.

(** ** Digits and prices *)

Lemma BANGLA_DIGITS_range (c : N) :
  c ∈ BANGLA_DIGITS ↔ 0x9E6 ≤ c ≤ 0x9EF.
Proof.
  split.
  - intros Hc. vm_compute in Hc.
    repeat (apply elem_of_cons in Hc as [->|Hc]; [lia|]).
    by apply elem_of_nil in Hc.
  - intros Hc.
    assert (c = 0x9E6 ∨ c = 0x9E7 ∨ c = 0x9E8 ∨ c = 0x9E9 ∨ c = 0x9EA
            ∨ c = 0x9EB ∨ c = 0x9EC ∨ c = 0x9ED ∨ c = 0x9EE ∨ c = 0x9EF)
      as Hcases by lia.
    repeat (destruct Hcases as [->|Hcases];
            [vm_compute; repeat (first [by left | right])|]).
    subst. vm_compute. repeat (first [by left | right]).
Qed.

Lemma BANGLA_TO_ENGLISH_lookup (c : N) :
  BANGLA_TO_ENGLISH !! c =
  if (0x9E6 <=? c) && (c <=? 0x9EF) then Some (c - 0x9E6 + 0x30) else None.
Proof.
  destruct (N.leb_spec 0x9E6 c) as [Hlo|Hlo];
    [destruct (N.leb_spec c 0x9EF) as [Hhi|Hhi]|]; cbn [andb].
  - assert (c = 0x9E6 ∨ c = 0x9E7 ∨ c = 0x9E8 ∨ c = 0x9E9 ∨ c = 0x9EA
            ∨ c = 0x9EB ∨ c = 0x9EC ∨ c = 0x9ED ∨ c = 0x9EE ∨ c = 0x9EF)
      as Hcases by lia.
    repeat (destruct Hcases as [->|Hcases]; [vm_compute; reflexivity|]).
    subst. vm_compute. reflexivity.
  - apply BANGLA_TO_ENGLISH_other. rewrite BANGLA_DIGITS_range. lia.
  - apply BANGLA_TO_ENGLISH_other. rewrite BANGLA_DIGITS_range. lia.
Qed.

(** X8. Digit normalisation leaves no Bangla digit behind, and applying it
    a second time changes nothing. *)
Theorem translate_leaves_no_bangla_digit (s : str) :
  Forall (λ c, c ∉ BANGLA_DIGITS) (translate BANGLA_TO_ENGLISH s)
  ∧ translate BANGLA_TO_ENGLISH (translate BANGLA_TO_ENGLISH s)
    = translate BANGLA_TO_ENGLISH s.
Proof.
  assert (Forall (λ c, c ∉ BANGLA_DIGITS) (translate BANGLA_TO_ENGLISH s))
    as Hnone.
  { unfold translate. apply Forall_fmap, Forall_forall. intros c _. simpl.
    rewrite BANGLA_TO_ENGLISH_lookup, BANGLA_DIGITS_range.
    destruct (N.leb_spec 0x9E6 c); [destruct (N.leb_spec c 0x9EF)|];
      cbn [andb default from_option id]; lia. }
  split; [done|].
  revert Hnone. generalize (translate BANGLA_TO_ENGLISH s). intros t Ht.
  unfold translate. induction Ht as [|c t Hc _ IH]; [done|].
  rewrite fmap_cons. f_equal; [|done].
  by rewrite BANGLA_TO_ENGLISH_other.
Qed.

(** Decides the comparisons of a goal whose code point is in a known
    range. *)
Ltac N_tests :=
  repeat match goal with
         | |- context [N.leb ?a ?b] =>
           first [ rewrite (proj2 (N.leb_le a b)) by lia
                 | rewrite (proj2 (N.leb_gt a b)) by lia ]
         | |- context [N.ltb ?a ?b] =>
           first [ rewrite (proj2 (N.ltb_lt a b)) by lia
                 | rewrite (proj2 (N.ltb_ge a b)) by lia ]
         | |- context [N.eqb ?a ?b] =>
           first [ rewrite (proj2 (N.eqb_neq a b)) by lia
                 | rewrite (proj2 (N.eqb_eq a b)) by lia ]
         end.

Lemma isspace_digit (c : N) :
  0x30 ≤ c ≤ 0x39 ∨ 0x9E6 ≤ c ≤ 0x9EF → isspace c = false.
Proof. intros [Hc|Hc]; unfold isspace; N_tests; reflexivity. Qed.

Lemma digit_value_ascii (c : N) :
  0x30 ≤ c ≤ 0x39 → digit_value c = Some (Z.of_N (c - 0x30)).
Proof.
  intros Hc. unfold digit_value, DECIMAL_ZEROS. cbn [List.find].
  N_tests. reflexivity.
Qed.

Lemma digit_value_bangla (c : N) :
  0x9E6 ≤ c ≤ 0x9EF → digit_value c = Some (Z.of_N (c - 0x9E6)).
Proof.
  intros Hc. unfold digit_value, DECIMAL_ZEROS. cbn [List.find].
  N_tests. cbn [andb]. N_tests. reflexivity.
Qed.

Lemma price_digit_range (c : N) (d : Z) :
  price_digit c = Some d →
  (0 ≤ d ≤ 9)%Z
  ∧ ((0x30 ≤ c ≤ 0x39 ∧ c = 0x30 + Z.to_N d)
     ∨ (0x9E6 ≤ c ≤ 0x9EF ∧ c = 0x9E6 + Z.to_N d)).
Proof.
  unfold price_digit.
  destruct (N.leb_spec 0x30 c); [destruct (N.leb_spec c 0x39)|]; cbn [andb].
  1: intros [= <-]; lia.
  all: destruct (N.leb_spec 0x9E6 c); [destruct (N.leb_spec c 0x9EF)|];
    cbn [andb]; try done.
  all: intros [= <-]; lia.
Qed.

Lemma price_noise_not_digit (c : N) :
  price_noise c = true → price_digit c = None.
Proof.
  intros Hnoise. destruct (price_digit c) as [d|] eqn:Hd; [|done].
  apply price_digit_range in Hd as [_ Hc].
  assert (price_noise c = false) as Hfalse; [|congruence].
  unfold price_noise.
  rewrite isspace_digit by (destruct Hc as [[? _]|[? _]]; auto).
  destruct Hc as [[Hc _]|[Hc _]]; N_tests; reflexivity.
Qed.

Lemma sub_price_noise_cons (c : N) (text : str) :
  sub_price_noise (c :: text) =
  if price_noise c then sub_price_noise text else c :: sub_price_noise text.
Proof.
  unfold sub_price_noise. rewrite filter_cons. unfold price_noise.
  destruct (N.eqb_spec c 0x9F3) as [->|H1]; cbn [orb].
  { rewrite decide_False; [done|]. intros H. apply H. by left. }
  destruct (N.eqb_spec c 0x2C) as [->|H2]; cbn [orb].
  { rewrite decide_False; [done|]. intros H. apply H. right. by left. }
  destruct (isspace c) eqn:Hsp.
  - rewrite decide_False; [done|]. intros H. apply H. right. by right.
  - rewrite decide_True; [done|]. by intros [?|[?|?]].
Qed.

Lemma translate_price_digit (c : N) (d : Z) :
  price_digit c = Some d →
  default c (BANGLA_TO_ENGLISH !! c) = 0x30 + Z.to_N d.
Proof.
  intros Hd. rewrite BANGLA_TO_ENGLISH_lookup.
  apply price_digit_range in Hd as [_ [[Hc ->]|[Hc ->]]];
    N_tests; cbn [andb default from_option id]; lia.
Qed.

(** The cleaned text of a price block made of digits and of what the
    cleaning deletes: the ASCII digits of its digit values. *)
Lemma cleaned_price_digits (text : str) :
  Forall (λ c, price_noise c = true ∨ is_Some (price_digit c)) text →
  translate BANGLA_TO_ENGLISH (sub_price_noise text)
  = (λ d, 0x30 + Z.to_N d) <$> omap price_digit text.
Proof.
  induction 1 as [|c text Hc _ IH]; [done|].
  rewrite sub_price_noise_cons. cbn [omap list_omap].
  destruct (price_noise c) eqn:Hnoise.
  - by rewrite (price_noise_not_digit _ Hnoise).
  - destruct Hc as [?|[d Hd]]; [congruence|]. rewrite Hd.
    unfold translate in *. rewrite !fmap_cons. f_equal; [|exact IH].
    by apply translate_price_digit.
Qed.

Lemma omap_price_digit_range (text : str) :
  Forall (λ d, (0 ≤ d ≤ 9)%Z) (omap price_digit text).
Proof.
  induction text as [|c text IH]; [done|]. cbn [omap list_omap].
  destruct (price_digit c) as [d|] eqn:Hd; [|done].
  apply Forall_cons. split; [|done]. by apply price_digit_range in Hd as [? _].
Qed.

Lemma int_digits_ascii (ds : list Z) (acc : Z) (after_digit : bool) :
  Forall (λ d, (0 ≤ d ≤ 9)%Z) ds →
  ds ≠ [] ∨ after_digit = true →
  int_digits acc after_digit ((λ d, 0x30 + Z.to_N d) <$> ds)
  = Some (foldl (λ acc d, 10 * acc + d)%Z acc ds).
Proof.
  intros Hds. revert acc after_digit.
  induction Hds as [|d ds Hd _ IH]; intros acc after_digit Hne.
  - destruct Hne as [Hne|Hne]; [done|]. by rewrite Hne.
  - rewrite fmap_cons. cbn [int_digits foldl].
    rewrite (proj2 (N.eqb_neq _ _)) by lia.
    rewrite digit_value_ascii by lia.
    replace (Z.of_N (0x30 + Z.to_N d - 0x30)) with d by lia.
    apply IH. by right.
Qed.

Lemma py_int_ascii_digits (ds : list Z) :
  Forall (λ d, (0 ≤ d ≤ 9)%Z) ds → ds ≠ [] →
  py_int ((λ d, 0x30 + Z.to_N d) <$> ds) = inr (decimal ds).
Proof.
  intros Hds Hne. unfold py_int.
  rewrite strip_by_nospace.
  2:{ apply Forall_fmap. eapply Forall_impl; [exact Hds|].
      intros d Hd. cbv beta in Hd.
      change (int_space (0x30 + Z.to_N d) = false).
      unfold int_space.
      rewrite isspace_digit; [done|]. left. lia. }
  destruct ds as [|d ds]; [done|].
  apply Forall_cons in Hds as Hd. destruct Hd as [Hd _].
  rewrite fmap_cons. unfold int_sign.
  rewrite (proj2 (N.eqb_neq _ 0x2D)) by lia.
  rewrite (proj2 (N.eqb_neq _ 0x2B)) by lia.
  rewrite <- (fmap_cons (λ d, 0x30 + Z.to_N d)).
  rewrite int_digits_ascii; [|done|by left].
  unfold decimal. cbn [mret raises_ret]. f_equal. lia.
Qed.

(** X9. A price block made only of ASCII or Bangla digits and of taka
    signs, commas and white space, in any arrangement, with at least one
    digit and no more digits than [int()] reads by default, gives the
    number its digits write, read from left to right; this price is never
    negative. *)
Theorem price_of_digits_and_noise
    (soup : BeautifulSoup) (price_tag : node) :
  find div_amount soup = Some price_tag →
  Forall (λ c, price_noise c = true ∨ is_Some (price_digit c))
         (get_text [] price_tag) →
  omap price_digit (get_text [] price_tag) ≠ [] →
  (length (omap price_digit (get_text [] price_tag)) ≤ 4300)%nat →
  extract_price soup = Some (decimal (omap price_digit (get_text [] price_tag)))
  ∧ (0 ≤ decimal (omap price_digit (get_text [] price_tag)))%Z.
Proof.
  intros Hfind Htext Hne _.
  assert (extract_price soup
          = Some (decimal (omap price_digit (get_text [] price_tag)))) as Hp.
  { unfold extract_price. rewrite Hfind.
    cbn [get_text_of mbind raises_bind mret raises_ret].
    rewrite (cleaned_price_digits _ Htext).
    rewrite py_int_ascii_digits; [done|apply omap_price_digit_range|done]. }
  split; [done|].
  destruct (extract_price_sign soup _ Hp) as (tag & Htag & _ & Hpos & _).
  rewrite Hfind in Htag. injection Htag as <-. apply Hpos.
  rewrite (cleaned_price_digits _ Htext).
  pose proof (omap_price_digit_range (get_text [] price_tag)) as Hrange.
  destruct (omap price_digit (get_text [] price_tag)) as [|d ds]; [done|].
  apply Forall_cons in Hrange as [Hd _].
  rewrite fmap_cons. cbn [head]. intros [= Heq]. lia.
Qed.

Lemma int_digits_without_digit (s : str) (acc : Z) :
  Forall (λ c, digit_value c = None) s → int_digits acc false s = None.
Proof.
  destruct 1 as [|c s Hc _]; [done|]. cbn [int_digits].
  destruct (c =? 0x5F); [done|]. by rewrite Hc.
Qed.

Lemma py_int_without_digit (s : str) :
  Forall (λ c, int_space c = false) s →
  Forall (λ c, digit_value c = None) s →
  py_int s = inl ValueError.
Proof.
  intros Hsp Hs. unfold py_int. rewrite strip_by_nospace by done.
  unfold int_sign. destruct Hs as [|c s Hc Hs].
  - done.
  - assert (Forall (λ c, digit_value c = None) (c :: s)) as Hcs
      by by apply Forall_cons.
    destruct (c =? 0x2D); [by rewrite int_digits_without_digit|].
    destruct (c =? 0x2B); by rewrite int_digits_without_digit.
Qed.

Lemma cleaned_price_without_digit (text : str) :
  Forall (λ c, digit_value c = None) text →
  Forall (λ c, digit_value c = None)
         (translate BANGLA_TO_ENGLISH (sub_price_noise text)).
Proof.
  intros Htext. unfold translate, sub_price_noise.
  apply Forall_fmap, Forall_forall. intros c Hc.
  apply list_elem_of_filter in Hc as [_ Hc].
  rewrite Forall_forall in Htext. specialize (Htext c Hc).
  change (digit_value (default c (BANGLA_TO_ENGLISH !! c)) = None).
  rewrite BANGLA_TO_ENGLISH_lookup.
  destruct (N.leb_spec 0x9E6 c); [destruct (N.leb_spec c 0x9EF)|];
    cbn [andb default from_option id]; try done.
  rewrite digit_value_bangla in Htext by lia. done.
Qed.

(** X10. A price block in which no decimal digit occurs (an empty block, a
    word, a lone taka sign) and a page without a price block both give no
    price: the parse failure ends in [None], not in an exception. *)
Theorem price_without_digit_is_absent (soup : BeautifulSoup) :
  (∀ price_tag, find div_amount soup = Some price_tag →
                Forall (λ c, digit_value c = None) (get_text [] price_tag)) →
  extract_price soup = None.
Proof.
  intros Htext. unfold extract_price.
  destruct (find div_amount soup) as [tag|]; [|done].
  cbn [get_text_of mbind raises_bind mret raises_ret].
  rewrite py_int_without_digit; [done|apply cleaned_price_no_space|].
  by apply cleaned_price_without_digit, Htext.
Qed.

(** ** Texts are trimmed *)

Lemma lstrip_by_head (sp : N → bool) (s : str) (c : N) :
  head (lstrip_by sp s) = Some c → sp c = false.
Proof.
  induction s as [|c' s IH]; [done|]. cbn [lstrip_by].
  destruct (sp c') eqn:Hc'; [done|]. by intros [= <-].
Qed.

Lemma lstrip_by_suffix (sp : N → bool) (s : str) :
  lstrip_by sp s `suffix_of` s.
Proof.
  induction s as [|c s IH]; [done|]. cbn [lstrip_by].
  destruct (sp c); [by apply suffix_cons_r|done].
Qed.

Lemma strip_by_edges (sp : N → bool) (s : str) :
  (∀ c, head (strip_by sp s) = Some c → sp c = false)
  ∧ (∀ c, last (strip_by sp s) = Some c → sp c = false).
Proof.
  unfold strip_by. split; intros c.
  - rewrite head_reverse. intros Hlast.
    pose proof (lstrip_by_suffix sp (reverse (lstrip_by sp s))) as [k Hk].
    assert (last (reverse (lstrip_by sp s)) = Some c) as Hl.
    { rewrite Hk, last_app, Hlast. done. }
    rewrite last_reverse in Hl. by apply lstrip_by_head in Hl.
  - rewrite last_reverse. apply lstrip_by_head.
Qed.

Lemma strip_by_trimmed (sp : N → bool) (s : str) :
  (∀ c, head s = Some c → sp c = false) →
  (∀ c, last s = Some c → sp c = false) →
  strip_by sp s = s.
Proof.
  intros H1 H2. unfold strip_by.
  assert (lstrip_by sp s = s) as ->.
  { destruct s as [|c s]; [done|]. cbn [lstrip_by].
    by rewrite (H1 c eq_refl). }
  assert (lstrip_by sp (reverse s) = reverse s) as ->.
  { destruct (reverse s) as [|c r] eqn:Hr; [done|]. cbn [lstrip_by].
    rewrite (H2 c); [done|].
    rewrite <- (reverse_involutive s), Hr, last_reverse. done. }
  apply reverse_involutive.
Qed.

Lemma join_empty_head_last (parts : list str) :
  Forall (λ s, s ≠ []) parts →
  head (join [] parts) = head parts ≫= head
  ∧ last (join [] parts) = last parts ≫= last.
Proof.
  induction 1 as [|x parts Hx Hparts IH]; [done|].
  destruct parts as [|y parts].
  - done.
  - change (join [] (x :: y :: parts)) with (x ++ [] ++ join [] (y :: parts)).
    cbn [app]. split.
    + destruct x; done.
    + rewrite last_app. destruct IH as [_ ->].
      change (last (x :: y :: parts)) with (last (y :: parts)).
      destruct (last (y :: parts)) as [z|] eqn:Hlast;
        [|by apply last_None in Hlast].
      cbn [mbind option_bind].
      destruct (last z) eqn:Hz; [done|].
      apply last_None in Hz as ->.
      apply last_Some_elem_of in Hlast.
      rewrite Forall_forall in Hparts. by destruct (Hparts _ Hlast).
Qed.

(** X11. A text read with [get_text(strip=True)] and no separator is
    trimmed: it neither starts nor ends with white space, so stripping it
    again changes nothing.  This holds for the title, the seller name, the
    features, the locations and the labelled attributes of a record. *)
Theorem get_text_is_trimmed (tag : node) :
  (∀ c, head (get_text [] tag) = Some c → isspace c = false)
  ∧ (∀ c, last (get_text [] tag) = Some c → isspace c = false)
  ∧ strip (get_text [] tag) = get_text [] tag.
Proof.
  unfold get_text.
  set (parts := filter (λ s, s ≠ []) (strip <$> strings (contents_of tag))).
  assert (Forall (λ s, s ≠ []) parts) as Hne.
  { apply Forall_forall. intros s Hs.
    by apply list_elem_of_filter in Hs as [? _]. }
  assert (∀ s, s ∈ parts → ∃ t, s = strip t) as Hstripped.
  { intros s Hs. apply list_elem_of_filter in Hs as [_ Hs].
    apply list_elem_of_fmap in Hs as (t & -> & _). by exists t. }
  destruct (join_empty_head_last parts Hne) as [Hhead Hlast].
  assert (∀ c, head (join [] parts) = Some c → isspace c = false) as H1.
  { intros c. rewrite Hhead. destruct parts as [|s parts']; [done|].
    destruct (Hstripped s) as [t ->]; [by left|].
    apply (proj1 (strip_by_edges isspace t)). }
  assert (∀ c, last (join [] parts) = Some c → isspace c = false) as H2.
  { intros c. rewrite Hlast.
    destruct (last parts) as [s|] eqn:Hs; [|done].
    destruct (Hstripped s) as [t ->]; [by eapply last_Some_elem_of|].
    apply (proj2 (strip_by_edges isspace t)). }
  split; [done|]. split; [done|].
  by apply strip_by_trimmed.
Qed.

(** ** Invariants of the extracted record *)

Section RecordInvariants.

Variable re_search_posted : str → option str.
Variable strptime_strftime : str → raises (str * str).
Variable current_date : str.
Variable json_dumps : list str → str.

Abbreviation parse_date_time' :=
  (parse_date_time re_search_posted strptime_strftime).
Abbreviation extract_data' :=
  (extract_data re_search_posted strptime_strftime current_date json_dumps).

Lemma parse_date_time_both_or_neither (soup : BeautifulSoup) (url : str) :
  (parse_date_time' soup url).1 = None ↔ (parse_date_time' soup url).2 = None.
Proof.
  unfold parse_date_time.
  destruct (find _ soup); [|done].
  destruct (str_in _ url); [done|].
  destruct (re_search_posted _); [|done].
  unfold try_except. by destruct (strptime_strftime _).
Qed.

Lemma parse_date_time_post_ad (soup : BeautifulSoup) (url : str) :
  str_in (u "post-ad?") url = true →
  parse_date_time' soup url = (None, None).
Proof.
  intros Hurl. unfold parse_date_time. rewrite Hurl.
  by destruct (find _ soup).
Qed.

(** X12. Every extracted record carries the URL it was fetched for and
    the date of the run; it has a published time exactly when it has a
    published date; for the address of the ad-posting form neither is set,
    whatever the page says; it has a division only if it has a location;
    and its description is always a string. *)
Theorem extracted_record_invariants
    (soup : BeautifulSoup) (url : str) (d : data) :
  extract_data' soup url = inr d →
  URL d = url
  ∧ Date d = current_date
  ∧ (Published_time d = None ↔ Published_Date d = None)
  ∧ (str_in (u "post-ad?") url = true →
     Published_time d = None ∧ Published_Date d = None)
  ∧ (is_Some (Division d) → is_Some (Location d))
  ∧ is_Some (Description d).
Proof.
  rewrite extract_data_never_raises. intros [= <-].
  cbn [URL Date Published_time Published_Date Division Location Description].
  split; [done|]. split; [done|].
  split; [apply parse_date_time_both_or_neither|]. split.
  { intros Hurl. by rewrite parse_date_time_post_ad. }
  split; [|by eexists].
  intros [x Hx]. apply lookup_lt_Some in Hx.
  apply lookup_lt_is_Some_2. lia.
Qed.

End RecordInvariants.

(** ** Index pages *)

Lemma find_Some_crit (crit : node → bool) (l : list node) (n : node) :
  find crit l = Some n → crit n = true.
Proof.
  unfold find. intros Hhead.
  pose proof (find_all_Forall crit l) as Hall.
  destruct (find_all crit l) as [|n' rest]; [done|].
  injection Hhead as <-. by apply Forall_cons in Hall as [? _].
Qed.

Lemma scrape_page_loop (items : list node) (acc : list str) :
  for_each
    (λ new_links item,
       match find a_with_href (contents_of item) with
       | Some link_tag =>
         href ← getattr link_tag (u "href");
         let full_link :=
           if startswith href (u "/") then BASE_URL ++ href else href in
         mret (new_links ++ [full_link])
       | None => mret new_links
       end)
    items acc
  = inr (acc ++ omap (λ item, resolve_href <$> item_href item) items).
Proof.
  revert acc. induction items as [|item items IH]; intros acc.
  - cbn [for_each omap list_omap]. by rewrite app_nil_r.
  - cbn [for_each omap list_omap]. unfold item_href at 1.
    destruct (find a_with_href (contents_of item)) as [link_tag|] eqn:Hfind.
    + apply find_Some_crit in Hfind. unfold a_with_href, has_attr in Hfind.
      apply andb_true_iff in Hfind as [_ Hhref].
      apply bool_decide_eq_true in Hhref as [href Hhref].
      unfold getattr. rewrite Hhref.
      cbn [mbind option_bind raises_bind mret raises_ret
           fmap option_fmap option_map].
      rewrite Hhref. cbn [option_map]. rewrite IH.
      by rewrite <- app_assoc.
    + cbn [mbind option_bind raises_bind mret raises_ret
           fmap option_fmap option_map].
      by rewrite IH.
Qed.

Lemma resolve_href_absolute (href : str) :
  startswith (resolve_href href) (u "/") = false.
Proof.
  unfold resolve_href. destruct (startswith href (u "/")) eqn:Hrel; [|done].
  unfold startswith. apply bool_decide_eq_false. intros [k Hk].
  vm_compute in Hk. discriminate Hk.
Qed.

Lemma page_links_absolute (soup : BeautifulSoup) :
  Forall (λ link, startswith link (u "/") = false) (page_links soup).
Proof.
  unfold page_links. destruct (find ul_list soup) as [ul|]; [|done].
  apply Forall_forall. intros link Hlink.
  apply list_elem_of_omap in Hlink as (item & _ & Hitem).
  destruct (item_href item) as [href|]; [|done].
  injection Hitem as <-. apply resolve_href_absolute.
Qed.

Section IndexPages.

Variable session_get : str → nat → outcome.

Lemma scrape_page_closed (page_number : nat) :
  scrape_page session_get page_number =
  match session_get (BASE_PAGE_URL ++ py_str_nat page_number) 0 with
  | Response status soup =>
    if bool_decide (status = 200%Z) then page_links soup else []
  | TimeoutError | OtherException => []
  end.
Proof.
  unfold scrape_page.
  destruct (session_get _ 0) as [status soup| |]; [|done|done].
  destruct (decide (status = 200%Z)) as [->|Hne].
  - rewrite bool_decide_eq_false_2 by (by intros H; apply H).
    rewrite bool_decide_eq_true_2 by done.
    unfold page_links. destruct (find ul_list soup) as [ul|]; [|done].
    by rewrite scrape_page_loop.
  - rewrite bool_decide_eq_true_2 by done.
    by rewrite bool_decide_eq_false_2.
Qed.

Lemma scrape_page_absolute (page_number : nat) :
  Forall (λ link, startswith link (u "/") = false)
         (scrape_page session_get page_number).
Proof.
  rewrite scrape_page_closed.
  destruct (session_get _ 0) as [status soup| |]; [|done|done].
  case_bool_decide; [apply page_links_absolute|done].
Qed.

(** X13. For a page answered with status 200 [scrape_page] returns one
    link per list item of the listing that contains an anchor with an
    [href]: the [href] of the first such anchor, prefixed by the site's
    origin when it starts with a slash, in document order.  Any
    other answer, a time-out or any other exception gives the empty list.
    No returned link starts with a slash. *)
Theorem scrape_page_links (page_number : nat) :
  (∀ soup,
     session_get (BASE_PAGE_URL ++ py_str_nat page_number) 0
     = Response 200 soup →
     scrape_page session_get page_number = page_links soup)
  ∧ ((∀ soup,
        session_get (BASE_PAGE_URL ++ py_str_nat page_number) 0
        ≠ Response 200 soup) →
     scrape_page session_get page_number = [])
  ∧ Forall (λ link, startswith link (u "/") = false)
           (scrape_page session_get page_number).
Proof.
  rewrite scrape_page_closed.
  destruct (session_get _ 0) as [status soup| |].
  - split; [|split].
    + intros soup' [= -> ->]. by rewrite bool_decide_eq_true_2.
    + intros Hnot. case_bool_decide as Hs; [|done]. subst.
      by destruct (Hnot soup).
    + case_bool_decide; [apply page_links_absolute|done].
  - by repeat split.
  - by repeat split.
Qed.

Lemma elem_of_concat {A} (x : A) (ls : list (list A)) :
  x ∈ concat ls ↔ ∃ l, l ∈ ls ∧ x ∈ l.
Proof.
  induction ls as [|l ls IH]; simpl.
  - split; [by intros ?%elem_of_nil|]. by intros (l & ?%elem_of_nil & _).
  - rewrite elem_of_app, IH. split.
    + intros [Hx|(l' & Hl' & Hx)].
      * exists l. split; [by left|done].
      * exists l'. split; [by right|done].
    + intros (l' & Hl' & Hx). apply elem_of_cons in Hl' as [->|Hl'].
      * by left.
      * right. by exists l'.
Qed.

(** X14. The links of a run are the links of the pages 1 to [MAX_PAGES]
    put end to end in the order of the pages: a link is collected exactly
    when one of these pages gives it, no collected link starts with a
    slash, and when every page fails the list is empty. *)
Theorem scraping_mobile_links_are_the_pages_links :
  scraping_mobile_links session_get
  = concat (scrape_page session_get <$> seq 1 MAX_PAGES)
  ∧ (∀ link, link ∈ scraping_mobile_links session_get ↔
             ∃ page_number, (1 ≤ page_number ≤ MAX_PAGES)%nat
                            ∧ link ∈ scrape_page session_get page_number)
  ∧ Forall (λ link, startswith link (u "/") = false)
           (scraping_mobile_links session_get)
  ∧ ((∀ page_number, (1 ≤ page_number ≤ MAX_PAGES)%nat →
                     scrape_page session_get page_number = []) →
     scraping_mobile_links session_get = []).
Proof.
  assert (scraping_mobile_links session_get
          = concat (scrape_page session_get <$> seq 1 MAX_PAGES)) as Heq.
  { unfold scraping_mobile_links. by rewrite foldl_app_concat, app_nil_l. }
  assert (∀ link, link ∈ scraping_mobile_links session_get ↔
                  ∃ page_number, (1 ≤ page_number ≤ MAX_PAGES)%nat
                    ∧ link ∈ scrape_page session_get page_number) as Hin.
  { intros link. rewrite Heq, elem_of_concat. split.
    - intros (l & Hl & Hlink).
      apply list_elem_of_fmap in Hl as (page & -> & Hpage).
      apply elem_of_seq in Hpage. exists page. split; [lia|done].
    - intros (page & Hpage & Hlink). exists (scrape_page session_get page).
      split; [|done]. apply list_elem_of_fmap. exists page.
      split; [done|]. apply elem_of_seq. lia. }
  split; [done|]. split; [done|]. split.
  - apply Forall_forall. intros link Hlink.
    apply Hin in Hlink as (page & _ & Hlink).
    pose proof (scrape_page_absolute page) as Habs.
    rewrite Forall_forall in Habs. by apply Habs.
  - intros Hempty.
    destruct (scraping_mobile_links session_get) as [|link links] eqn:Hl;
      [done|].
    assert (link ∈ link :: links) as Hlink by by left.
    apply Hin in Hlink as (page & Hpage & Hlink).
    rewrite (Hempty page Hpage) in Hlink. by apply elem_of_nil in Hlink.
Qed.

End IndexPages.

(** ** The date phrase *)

Lemma replace_fuel_enough (old new : str) (fuel1 fuel2 : nat) (s : str) :
  old ≠ [] → (length s ≤ fuel1)%nat → (length s ≤ fuel2)%nat →
  replace_fuel fuel1 old new s = replace_fuel fuel2 old new s.
Proof.
  intros Hold. revert fuel2 s.
  assert (∀ fuel, replace_fuel fuel old new [] = []) as Hnil.
  { intros [|fuel]; [done|]. cbn [replace_fuel].
    rewrite bool_decide_eq_false_2; [done|].
    intros Hp. apply prefix_nil_inv in Hp. done. }
  induction fuel1 as [|fuel1 IH]; intros fuel2 s H1 H2.
  - destruct s; [|cbn [length] in H1; lia]. by rewrite !Hnil.
  - destruct fuel2 as [|fuel2].
    { destruct s; [|cbn [length] in H2; lia]. by rewrite !Hnil. }
    cbn [replace_fuel]. case_bool_decide as Hp.
    + f_equal. apply IH.
      * rewrite length_drop. destruct old; [done|].
        destruct s; [by apply prefix_nil_not in Hp|].
        cbn [length] in *. lia.
      * rewrite length_drop. destruct old; [done|].
        destruct s; [by apply prefix_nil_not in Hp|].
        cbn [length] in *. lia.
    + destruct s as [|c r]; [done|]. f_equal. apply IH; cbn [length] in *; lia.
Qed.

Lemma replace_hit (old new s : str) :
  old ≠ [] → replace old new (old ++ s) = new ++ replace old new s.
Proof.
  intros Hold. unfold replace.
  destruct old as [|o os]; [done|].
  change (length ((o :: os) ++ s)) with (S (length (os ++ s))).
  cbn [replace_fuel].
  rewrite bool_decide_eq_true_2 by (by exists s).
  f_equal. rewrite drop_app_length.
  apply replace_fuel_enough; [done| |done]. rewrite length_app. lia.
Qed.

Lemma replace_miss (old new : str) (c : char) (s : str) :
  ¬ old `prefix_of` c :: s →
  replace old new (c :: s) = c :: replace old new s.
Proof.
  intros Hp. unfold replace. cbn [length replace_fuel].
  by rewrite bool_decide_eq_false_2.
Qed.

Lemma replace_skip (o : char) (os new a s : str) :
  Forall (λ c, c ≠ o) a →
  replace (o :: os) new (a ++ s) = a ++ replace (o :: os) new s.
Proof.
  induction 1 as [|c a Hc _ IH]; [done|].
  cbn [app]. rewrite replace_miss; [by rewrite IH|].
  intros Hp. apply prefix_cons_inv_1 in Hp. done.
Qed.

Lemma mismatch_not_prefix (old known : str) (c : char) (t : str) :
  mismatch old known = true → ascii c = true →
  ¬ old `prefix_of` known ++ c :: t.
Proof.
  revert known. induction old as [|o os IH]; intros known Hm Hc Hp; [done|].
  destruct known as [|k ks]; cbn [mismatch app] in *.
  - apply prefix_cons_inv_1 in Hp as ->. by rewrite Hc in Hm.
  - pose proof (prefix_cons_inv_1 _ _ _ _ Hp) as ->.
    rewrite N.eqb_refl in Hm. apply prefix_cons_inv_2 in Hp.
    by apply (IH ks).
Qed.

Lemma replace_block (old new block : str) (c : char) (t : str) :
  block_clear old block = true → ascii c = true →
  replace old new (block ++ c :: t) = block ++ replace old new (c :: t).
Proof.
  intros Hclear Hc. induction block as [|x block IH]; [done|].
  cbn [block_clear] in Hclear. apply andb_true_iff in Hclear as [Hm Hclear].
  cbn [app]. rewrite replace_miss; [by rewrite IH|].
  by apply (mismatch_not_prefix old (x :: block)).
Qed.

Lemma ascii_not_key (o : char) (a : str) :
  ascii o = false → Forall (λ c, ascii c = true) a → Forall (λ c, c ≠ o) a.
Proof.
  intros Ho Ha. eapply Forall_impl; [exact Ha|]. intros c Hc ->. congruence.
Qed.

(** A key that occurs nowhere in a phrase leaves it as it is. *)
Lemma replace_phrase_miss (old new before block after tail : str) :
  key_ok old = true →
  Forall (λ c, ascii c = true) before →
  Forall (λ c, ascii c = true) after → after ≠ [] →
  block_clear old block = true →
  replace old new tail = tail →
  replace old new (before ++ block ++ after ++ tail)
  = before ++ block ++ after ++ tail.
Proof.
  intros Hkey Hbefore Hafter Hne Hclear Htail.
  destruct old as [|o os]; [done|]. cbn [key_ok] in Hkey.
  apply negb_true_iff in Hkey.
  rewrite replace_skip by (by apply ascii_not_key).
  destruct after as [|c after]; [done|].
  pose proof (Forall_inv Hafter) as Hc.
  cbn [app]. rewrite replace_block by done.
  change (c :: after ++ tail) with ((c :: after) ++ tail).
  rewrite replace_skip by (by apply ascii_not_key).
  by rewrite Htail.
Qed.

(** A key that is the block of a phrase is replaced there and nowhere
    else. *)
Lemma replace_phrase_hit (old new before after tail : str) :
  key_ok old = true →
  Forall (λ c, ascii c = true) before →
  Forall (λ c, ascii c = true) after →
  replace old new tail = tail →
  replace old new (before ++ old ++ after ++ tail)
  = before ++ new ++ after ++ tail.
Proof.
  intros Hkey Hbefore Hafter Htail.
  destruct old as [|o os]; [done|]. cbn [key_ok] in Hkey.
  apply negb_true_iff in Hkey.
  rewrite replace_skip by (by apply ascii_not_key).
  rewrite replace_hit by done.
  rewrite replace_skip by (by apply ascii_not_key).
  by rewrite Htail.
Qed.

Lemma fold_phrase_sound (keys : list (str * str))
    (block tail block' before after : str) :
  fold_phrase keys block tail = Some block' →
  Forall (λ c, ascii c = true) before →
  Forall (λ c, ascii c = true) after → after ≠ [] →
  foldl (λ s kv, replace kv.1 kv.2 s) (before ++ block ++ after ++ tail) keys
  = before ++ block' ++ after ++ tail.
Proof.
  intros Hfold Hbefore Hafter Hne. revert block Hfold.
  induction keys as [|[old new] keys IH]; intros block Hfold.
  - cbn [fold_phrase foldl] in *. by injection Hfold as ->.
  - cbn [fold_phrase foldl fst snd] in *.
    destruct (key_ok old) eqn:Hkey; [|done].
    case_bool_decide as Htail; [|done]. cbn [andb] in Hfold.
    case_bool_decide as Hblock.
    + subst block. rewrite replace_phrase_hit by done. by apply IH.
    + destruct (block_clear old block) eqn:Hclear; [|done].
      rewrite replace_phrase_miss by done. by apply IH.
Qed.

Lemma translate_app (table : gmap N N) (s t : str) :
  translate table (s ++ t) = translate table s ++ translate table t.
Proof. apply fmap_app. Qed.

Lemma translate_digit_or_ascii (s : str) :
  Forall (λ c, digit_or_ascii c = true) s →
  Forall (λ c, ascii c = true) (translate BANGLA_TO_ENGLISH s).
Proof.
  intros Hs. unfold translate. apply Forall_fmap.
  eapply Forall_impl; [exact Hs|]. intros c Hc. cbn [compose].
  rewrite BANGLA_TO_ENGLISH_lookup. unfold digit_or_ascii, ascii in *.
  destruct (N.leb_spec 0x9E6 c); [destruct (N.leb_spec c 0x9EF)|];
    cbn [andb default from_option id] in *.
  - apply N.ltb_lt. lia.
  - by rewrite orb_false_r in Hc.
  - by rewrite orb_false_r in Hc.
Qed.

(** Every month and every half of the day, taken as the block or as the
    tail of a phrase, goes through the replacements as intended. *)
Lemma MONTH_MAP_fold_phrase :
  forallb (λ half,
    forallb (λ month,
      bool_decide (translate BANGLA_TO_ENGLISH month.1 = month.1)
      && bool_decide (translate BANGLA_TO_ENGLISH half.1 = half.1)
      && bool_decide (fold_phrase MONTH_MAP month.1 half.1 = Some month.2)
      && forallb (λ c, ascii c) month.2
      && bool_decide
           (replace (u "পিএম") (u "PM") (replace (u "এএম") (u "AM") half.1)
            = half.2)) MONTH_MAP) DAY_HALVES = true.
Proof. vm_compute. reflexivity. Qed.

Lemma english_date_phrase (day bn en time half_bn half_en : str) :
  (bn, en) ∈ MONTH_MAP → (half_bn, half_en) ∈ DAY_HALVES →
  Forall (λ c, digit_or_ascii c = true) day →
  Forall (λ c, digit_or_ascii c = true) time → time ≠ [] →
  english_date (day ++ bn ++ time ++ half_bn)
  = translate BANGLA_TO_ENGLISH day ++ en
    ++ translate BANGLA_TO_ENGLISH time ++ half_en.
Proof.
  intros Hmonth Hhalf Hday Htime Hne.
  pose proof MONTH_MAP_fold_phrase as Hall.
  rewrite forallb_forall in Hall.
  apply list_elem_of_In in Hhalf. specialize (Hall _ Hhalf).
  rewrite forallb_forall in Hall.
  apply list_elem_of_In in Hmonth. specialize (Hall _ Hmonth).
  cbn [fst snd] in Hall.
  apply andb_true_iff in Hall as [Hall Hhalves].
  apply andb_true_iff in Hall as [Hall Hen].
  apply andb_true_iff in Hall as [Hall Hfold].
  apply andb_true_iff in Hall as [Hbn Hhalf_bn].
  apply bool_decide_eq_true_1 in Hhalves, Hfold, Hbn, Hhalf_bn.
  rewrite forallb_forall in Hen.
  assert (Forall (λ c, ascii c = true) en) as Hen'.
  { apply Forall_forall. intros c Hc. apply Hen. by apply list_elem_of_In. }
  apply translate_digit_or_ascii in Hday, Htime.
  assert (translate BANGLA_TO_ENGLISH time ≠ []) as Hne'.
  { destruct time; [done|]. unfold translate. by rewrite fmap_cons. }
  unfold english_date. cbv zeta.
  rewrite !translate_app, Hbn, Hhalf_bn.
  revert Hday Htime Hne'.
  generalize (translate BANGLA_TO_ENGLISH day).
  generalize (translate BANGLA_TO_ENGLISH time).
  intros time' day' Hday Htime Hne'.
  rewrite (fold_phrase_sound _ _ _ _ _ _ Hfold Hday Htime Hne').
  assert (Forall (λ c, ascii c = true) (day' ++ en ++ time')) as Hplain.
  { by repeat (apply Forall_app; split). }
  assert (∀ old new : str, key_ok old = true →
            replace old new (day' ++ en ++ time' ++ half_bn)
            = day' ++ en ++ time' ++ replace old new half_bn) as Hskip.
  { intros [|o os] new Hkey; [done|]. cbn [key_ok] in Hkey.
    apply negb_true_iff in Hkey.
    replace (day' ++ en ++ time' ++ half_bn)
      with ((day' ++ en ++ time') ++ half_bn) by (by rewrite <- !app_assoc).
    rewrite replace_skip by (by apply ascii_not_key).
    by rewrite <- !app_assoc. }
  rewrite Hskip by (vm_compute; reflexivity).
  assert (∀ old new tail : str, key_ok old = true →
            replace old new (day' ++ en ++ time' ++ tail)
            = day' ++ en ++ time' ++ replace old new tail) as Hskip'.
  { intros [|o os] new tail Hkey; [done|]. cbn [key_ok] in Hkey.
    apply negb_true_iff in Hkey.
    replace (day' ++ en ++ time' ++ tail)
      with ((day' ++ en ++ time') ++ tail) by (by rewrite <- !app_assoc).
    rewrite replace_skip by (by apply ascii_not_key).
    by rewrite <- !app_assoc. }
  rewrite Hskip' by (vm_compute; reflexivity).
  by rewrite Hhalves.
Qed.

Section DatePhrase.

Variable re_search_posted : str → option str.
Variable strptime_strftime : str → raises (str * str).

(** X17. The phrase read by [strptime].  When the text after the marker
    is a day, a month key of [MONTH_MAP], a time and a half of the day,
    the day and the time being ASCII characters and Bangla digits, then
    [parse_date_time] parses the phrase in which the digits are ASCII, the
    month key is replaced by its abbreviation and the half of the day by
    AM or PM, everything else staying in place; the published time and
    date are what [strptime] makes of this phrase, and both are absent when
    it raises.  The month key is replaced as it stands in [MONTH_MAP]: the
    key of September ends with a space, which goes with it. *)
Theorem date_phrase_is_normalised
    (soup : BeautifulSoup) (url : str) (div : node)
    (group1 day bn en time half_bn half_en : str) :
  find (has_name (u "div")) soup = Some div →
  str_in (u "post-ad?") url = false →
  re_search_posted (get_text (u " ") div) = Some group1 →
  strip group1 = day ++ bn ++ time ++ half_bn →
  (bn, en) ∈ MONTH_MAP → (half_bn, half_en) ∈ DAY_HALVES →
  Forall (λ c, digit_or_ascii c = true) day →
  Forall (λ c, digit_or_ascii c = true) time → time ≠ [] →
  parse_date_time re_search_posted strptime_strftime soup url
  = match strptime_strftime
            (translate BANGLA_TO_ENGLISH day ++ en
             ++ translate BANGLA_TO_ENGLISH time ++ half_en) with
    | inr r => (Some r.1, Some r.2)
    | inl _ => (None, None)
    end.
Proof.
  intros Hdiv Hurl Hre Hstrip Hmonth Hhalf Hday Htime Hne.
  unfold parse_date_time. rewrite Hdiv, Hurl, Hre, Hstrip.
  change (replace (u "পিএম") (u "PM") _)
    with (english_date (day ++ bn ++ time ++ half_bn)).
  rewrite (english_date_phrase _ _ _ _ _ _ Hmonth Hhalf Hday Htime Hne).
  unfold try_except. by destruct (strptime_strftime _).
Qed.

End DatePhrase.

(** ** The further properties on the sample pages and networks *)

Lemma sample_row_extracted :
  sample_extract_data page_without_features sample_url = inr sample_row.
Proof. vm_compute. reflexivity. Qed.

Lemma clean_html_bounded_witness :
  ∃ k evs,
    trace (clean_html net_timeout sample_randint sample_re_search_posted
             sample_strptime_strftime sample_current_date sample_json_dumps
             sample_url 0 empty_state).2 = trace empty_state ++ evs
    ∧ attempts sample_url evs = (k + 1)%nat
    ∧ (k ≤ MAX_RETRIES)%nat
    ∧ (foldr Z.add 0 (sleeps evs) ≤ Z.of_nat MAX_RETRIES * RETRY_WAIT_MAX)%Z.
Proof.
  destruct (clean_html_requests_and_sleeps_are_bounded
              net_timeout sample_randint sample_re_search_posted
              sample_strptime_strftime sample_current_date sample_json_dumps
              sample_url empty_state)
    as (k & evs & Hk & _ & _ & Htrace & _ & Hatt & _ & Hsum).
  exists k, evs. split; [done|]. split; [done|]. split; [done|].
  apply Hsum. intros rc. unfold sample_randint, RETRY_WAIT_MAX. lia.
Defined.

Lemma all_requests_failing_witness :
  safe_clean net_mixed_failures sample_randint sample_re_search_posted
    sample_strptime_strftime sample_current_date sample_json_dumps
    sample_url empty_state
  = (inr (),
     mk_state (mobiles empty_state) (failed_urls empty_state ++ [sample_url])
       (trace empty_state ++ timeout_events sample_randint sample_url)
       (failed_urls_file empty_state)).
Proof.
  refine (proj2 (all_requests_failing_ends_in_failed_urls
                   net_mixed_failures sample_randint sample_re_search_posted
                   sample_strptime_strftime sample_current_date
                   sample_json_dumps sample_url empty_state _)).
  intros rc _. unfold net_mixed_failures. by destruct (Nat.even rc).
Defined.



Lemma main_with_only_known_links_witness :
  main net_duplicate sample_randint sample_re_search_posted
       sample_strptime_strftime sample_current_date sample_json_dumps
       known_state
  = (inr (), known_state).
Proof.
  apply main_with_only_known_links_changes_nothing.
  assert (scraping_mobile_links net_duplicate = [sample_url; sample_url])
    as -> by (vm_compute; reflexivity).
  intros url Hurl.
  assert (url = sample_url) as ->.
  { apply elem_of_cons in Hurl as [Hurl|Hurl]; [exact Hurl|].
    apply elem_of_cons in Hurl as [Hurl|Hurl]; [exact Hurl|].
    destruct (proj1 (elem_of_nil _) Hurl). }
  apply elem_of_dom. eexists. apply lookup_singleton_eq.
Defined.

Lemma price_of_digits_and_noise_witness :
  extract_price page_without_features = Some 1200%Z.
Proof.
  assert (decimal (omap price_digit (get_text [] price_tag_1200)) = 1200%Z)
    as <- by (vm_compute; reflexivity).
  refine (proj1 (price_of_digits_and_noise page_without_features
                   price_tag_1200 _ _ _ _)).
  - vm_compute. reflexivity.
  - set (text := get_text [] price_tag_1200). vm_compute in text.
    subst text.
    repeat (apply Forall_cons; split;
            [first [left; vm_compute; reflexivity
                   | right; eexists; vm_compute; reflexivity]|]).
    constructor.
  - vm_compute. discriminate.
  - assert (omap price_digit (get_text [] price_tag_1200) = [1; 2; 0; 0]%Z)
      as -> by (vm_compute; reflexivity).
    cbn [length]. lia.
Defined.

Lemma price_without_digit_witness :
  extract_price page_negotiable = None.
Proof.
  apply price_without_digit_is_absent. intros price_tag.
  assert (find div_amount page_negotiable = Some price_tag_negotiable) as ->
    by (vm_compute; reflexivity).
  intros [= <-].
  set (text := get_text [] price_tag_negotiable). vm_compute in text.
  subst text.
  repeat (apply Forall_cons; split; [vm_compute; reflexivity|]).
  constructor.
Defined.

Lemma extracted_record_invariants_witness :
  URL sample_row = sample_url
  ∧ (is_Some (Division sample_row) → is_Some (Location sample_row)).
Proof.
  destruct (extracted_record_invariants sample_re_search_posted
              sample_strptime_strftime sample_current_date sample_json_dumps
              page_without_features sample_url sample_row
              sample_row_extracted) as (Hurl & _ & _ & _ & Hdiv & _).
  by split.
Defined.

Lemma scrape_page_links_witness :
  scrape_page net_duplicate 1 = page_links index_page_with_duplicate.
Proof.
  apply (proj1 (scrape_page_links net_duplicate 1)).
  vm_compute. reflexivity.
Defined.

Lemma scraping_mobile_links_witness :
  scraping_mobile_links net_not_found = [].
Proof.
  apply (proj2 (proj2 (proj2
           (scraping_mobile_links_are_the_pages_links net_not_found)))).
  intros page _. reflexivity.
Defined.

Lemma date_phrase_witness :
  parse_date_time sample_re_search_posted sample_strptime_strftime
                  page_without_features sample_url
  = (Some (u "10:30"), Some (u "2026-01-12")).
Proof.
  etransitivity.
  - apply (date_phrase_is_normalised
             sample_re_search_posted sample_strptime_strftime
             page_without_features sample_url
             (default (NavigableString [])
                      (find (has_name (u "div")) page_without_features))
             (u "১২ জানু ১০:৩০ এএম")
             (u "১২ ") (u "জানু") (u "Jan") (u " ১০:৩০ ") (u "এএম") (u "AM")).
    + vm_compute. reflexivity.
    + vm_compute. reflexivity.
    + vm_compute. reflexivity.
    + vm_compute. reflexivity.
    + unfold MONTH_MAP. apply list_elem_of_here.
    + unfold DAY_HALVES. apply list_elem_of_here.
    + set (text := u "১২ "). vm_compute in text. subst text.
      repeat (apply Forall_cons; split; [vm_compute; reflexivity|]).
      constructor.
    + set (text := u " ১০:৩০ "). vm_compute in text. subst text.
      repeat (apply Forall_cons; split; [vm_compute; reflexivity|]).
      constructor.
    + vm_compute. discriminate.
  - vm_compute. reflexivity.
Defined.
